(** * jx-updatebot: the [pr] command (pkg/cmd/pr/pr.go)

    A shallow embedding of [Options.Run], [Options.Validate],
    [Options.ApplyChanges] and [Options.FindURLs], with the properties of
    the rule engine proved over it.

    Conventions.
    - A Go [string] is a [string] of bytes; a slice is a [list]; a nil
      pointer or nil map is [None].
    - A Go [error] result is an [option error]; [None] is [nil].
    - Code that lives outside this file of the repository (the change
      appliers, the pull-request collaborator, the file system and the
      environment) is a field of the record [Externals]; everything the
      source file itself does is a definition here.
    - A call of the logger appends an entry to the log of the state; a
      format string and its arguments are kept as data.
    - A run-time panic (index out of range) is the outcome [Panicked]. *)

From Stdlib Require Import String Ascii List Bool Arith ZArith Lia.
Import ListNotations.
Open Scope string_scope.

(* ================================================================= *)
(** ** Strings *)

Module strings.

(** [prefix p s] of the standard library is [strings.HasPrefix s p]. *)

(** The loop of [strings.Split] for a non-empty separator: [cur] is the
    segment being read, [skip] the number of separator bytes still to be
    dropped after a match. Matches are leftmost and do not overlap. *)
Fixpoint splitFrom (sep : string) (skip : nat) (cur : string) (s : string)
  : list string :=
  match s with
  | EmptyString => [cur]
  | String c s' =>
      match skip with
      | S k => splitFrom sep k cur s'
      | O =>
          if prefix sep s
          then cur :: splitFrom sep (String.length sep - 1) "" s'
          else splitFrom sep 0 (cur ++ String c "") s'
      end
  end.

(** With an empty separator Go splits after each UTF-8 sequence; the
    model splits after each byte (the source never passes [""]). *)
Fixpoint explode (s : string) : list string :=
  match s with
  | EmptyString => []
  | String c s' => String c "" :: explode s'
  end.

Definition Split (s sep : string) : list string :=
  match sep with
  | EmptyString => explode s
  | _ => splitFrom sep 0 "" s
  end.

End strings.

(* ================================================================= *)
(** ** Errors and outcomes *)

(** A format argument of a log or error message, kept as data. *)
Inductive arg : Type :=
| AStr (s : string)
| AInt (n : nat).

(** [errors.Errorf], [errors.Wrapf] and [options.MissingOption]. An error
    produced by a collaborator is any value of this type. *)
Inductive error : Type :=
| Errorf (format : string) (args : list arg)
| Wrapf (cause : error) (format : string) (args : list arg)
| MissingOption (name : string).

(** What a call leaves behind: a state and a value, or a panic. *)
Inductive outcome (S A : Type) : Type :=
| Return (s : S) (a : A)
| Panicked.
Arguments Return {S A} s a.
Arguments Panicked {S A}.

(* ================================================================= *)
(** ** The configuration (v1alpha1) *)

(** Modelled from the spec: the payloads of the four change variants are
    declared in pkg/apis/updatebot/v1alpha1, outside this file. The code
    here only tests each pointer for nil and hands the payload on, so a
    payload is an opaque piece of configuration text. *)
Record Command : Type := { CommandText : string }.
Record GoChange : Type := { GoText : string }.
Record Regex : Type := { RegexText : string }.
Record VersionStreamChange : Type := { VersionStreamText : string }.

Record Change : Type := {
  ChangeCommand : option Command;
  ChangeGo : option GoChange;
  ChangeRegex : option Regex;
  ChangeVersionStream : option VersionStreamChange
}.

Record Rule : Type := {
  URLs : list string;
  Changes : list Change;
  RuleFork : bool
}.

Record UpdateConfigSpec : Type := { Rules : list Rule }.
Record UpdateConfig : Type := { Spec : UpdateConfigSpec }.

(* ================================================================= *)
(** ** Pull requests (go-scm) *)

Record Label : Type := {
  LabelName : string;
  LabelDescription : string
}.

Record PullRequest : Type := {
  Source : string;
  Title : string;
  Body : string;
  Draft : bool;
  PRLabels : list Label
}.

(* ================================================================= *)
(** ** Options *)

(** Opaque handles for interface values the code only stores and
    passes on. *)
Inductive GitClient : Type := GitClientHandle (id : nat).
Inductive GraphQL : Type := GraphQLHandle (id : nat).

(** [helmer.NewHelmCLIWithRunner(runner, binary, cwd, debug)]; the
    command runner is left out. *)
Inductive Helmer : Type :=
| HelmCLI (binary cwd : string) (debug : bool)
| OtherHelmer (id : nat).

Record ScmClientFactory : Type := {
  GitServerURL : string;
  GitToken : string;
  GitUsername : string
}.

Record PullRequestFilter : Type := { FilterLabels : list string }.

(** The fields of the embedded [environments.EnvironmentPullRequestOptions]
    that this file reads or writes. Its [Function] field holds a closure
    over the options themselves; the model hands that closure to [Create]
    as an argument instead of storing it. *)
Record EnvironmentPullRequestOptions : Type := {
  Factory : ScmClientFactory;
  Gitter : option GitClient;
  OutDir : string;
  BranchName : string;
  CommitTitle : string;
  CommitMessage : string;
  Fork : bool;
  Filter : option PullRequestFilter
}.

Record Options : Type := {
  EPO : EnvironmentPullRequestOptions;
  Dir : string;
  ConfigFile : string;
  Version : string;
  VersionFile : string;
  PullRequestTitle : string;
  PullRequestBody : string;
  GitCommitUsername : string;
  GitCommitUserEmail : string;
  AutoMerge : bool;
  NoVersion : bool;
  GitCredentials : bool;
  Labels : list string;
  TemplateData : option (list (string * string));
  PullRequestSHAs : option (list (string * string));
  OptHelmer : option Helmer;
  GraphQLClient : option GraphQL;
  OptUpdateConfig : UpdateConfig
}.

(** *** Field assignments *)

Definition setGitServerURL (v : string) (f : ScmClientFactory) :=
  {| GitServerURL := v; GitToken := GitToken f; GitUsername := GitUsername f |}.
Definition setGitToken (v : string) (f : ScmClientFactory) :=
  {| GitServerURL := GitServerURL f; GitToken := v; GitUsername := GitUsername f |}.

Definition setFactory (v : ScmClientFactory) (e : EnvironmentPullRequestOptions) :=
  {| Factory := v; Gitter := Gitter e; OutDir := OutDir e;
     BranchName := BranchName e; CommitTitle := CommitTitle e;
     CommitMessage := CommitMessage e; Fork := Fork e; Filter := Filter e |}.
Definition setBranchName (v : string) (e : EnvironmentPullRequestOptions) :=
  {| Factory := Factory e; Gitter := Gitter e; OutDir := OutDir e;
     BranchName := v; CommitTitle := CommitTitle e;
     CommitMessage := CommitMessage e; Fork := Fork e; Filter := Filter e |}.
Definition setCommitTitle (v : string) (e : EnvironmentPullRequestOptions) :=
  {| Factory := Factory e; Gitter := Gitter e; OutDir := OutDir e;
     BranchName := BranchName e; CommitTitle := v;
     CommitMessage := CommitMessage e; Fork := Fork e; Filter := Filter e |}.
Definition setCommitMessage (v : string) (e : EnvironmentPullRequestOptions) :=
  {| Factory := Factory e; Gitter := Gitter e; OutDir := OutDir e;
     BranchName := BranchName e; CommitTitle := CommitTitle e;
     CommitMessage := v; Fork := Fork e; Filter := Filter e |}.
Definition setFork (v : bool) (e : EnvironmentPullRequestOptions) :=
  {| Factory := Factory e; Gitter := Gitter e; OutDir := OutDir e;
     BranchName := BranchName e; CommitTitle := CommitTitle e;
     CommitMessage := CommitMessage e; Fork := v; Filter := Filter e |}.
Definition setFilter (v : option PullRequestFilter) (e : EnvironmentPullRequestOptions) :=
  {| Factory := Factory e; Gitter := Gitter e; OutDir := OutDir e;
     BranchName := BranchName e; CommitTitle := CommitTitle e;
     CommitMessage := CommitMessage e; Fork := Fork e; Filter := v |}.

Definition setEPO (v : EnvironmentPullRequestOptions) (o : Options) :=
  {| EPO := v; Dir := Dir o; ConfigFile := ConfigFile o; Version := Version o;
     VersionFile := VersionFile o; PullRequestTitle := PullRequestTitle o;
     PullRequestBody := PullRequestBody o;
     GitCommitUsername := GitCommitUsername o;
     GitCommitUserEmail := GitCommitUserEmail o; AutoMerge := AutoMerge o;
     NoVersion := NoVersion o; GitCredentials := GitCredentials o;
     Labels := Labels o; TemplateData := TemplateData o;
     PullRequestSHAs := PullRequestSHAs o; OptHelmer := OptHelmer o;
     GraphQLClient := GraphQLClient o; OptUpdateConfig := OptUpdateConfig o |}.
Definition setConfigFile (v : string) (o : Options) :=
  {| EPO := EPO o; Dir := Dir o; ConfigFile := v; Version := Version o;
     VersionFile := VersionFile o; PullRequestTitle := PullRequestTitle o;
     PullRequestBody := PullRequestBody o;
     GitCommitUsername := GitCommitUsername o;
     GitCommitUserEmail := GitCommitUserEmail o; AutoMerge := AutoMerge o;
     NoVersion := NoVersion o; GitCredentials := GitCredentials o;
     Labels := Labels o; TemplateData := TemplateData o;
     PullRequestSHAs := PullRequestSHAs o; OptHelmer := OptHelmer o;
     GraphQLClient := GraphQLClient o; OptUpdateConfig := OptUpdateConfig o |}.
Definition setVersion (v : string) (o : Options) :=
  {| EPO := EPO o; Dir := Dir o; ConfigFile := ConfigFile o; Version := v;
     VersionFile := VersionFile o; PullRequestTitle := PullRequestTitle o;
     PullRequestBody := PullRequestBody o;
     GitCommitUsername := GitCommitUsername o;
     GitCommitUserEmail := GitCommitUserEmail o; AutoMerge := AutoMerge o;
     NoVersion := NoVersion o; GitCredentials := GitCredentials o;
     Labels := Labels o; TemplateData := TemplateData o;
     PullRequestSHAs := PullRequestSHAs o; OptHelmer := OptHelmer o;
     GraphQLClient := GraphQLClient o; OptUpdateConfig := OptUpdateConfig o |}.
Definition setVersionFile (v : string) (o : Options) :=
  {| EPO := EPO o; Dir := Dir o; ConfigFile := ConfigFile o; Version := Version o;
     VersionFile := v; PullRequestTitle := PullRequestTitle o;
     PullRequestBody := PullRequestBody o;
     GitCommitUsername := GitCommitUsername o;
     GitCommitUserEmail := GitCommitUserEmail o; AutoMerge := AutoMerge o;
     NoVersion := NoVersion o; GitCredentials := GitCredentials o;
     Labels := Labels o; TemplateData := TemplateData o;
     PullRequestSHAs := PullRequestSHAs o; OptHelmer := OptHelmer o;
     GraphQLClient := GraphQLClient o; OptUpdateConfig := OptUpdateConfig o |}.
Definition setPullRequestTitle (v : string) (o : Options) :=
  {| EPO := EPO o; Dir := Dir o; ConfigFile := ConfigFile o; Version := Version o;
     VersionFile := VersionFile o; PullRequestTitle := v;
     PullRequestBody := PullRequestBody o;
     GitCommitUsername := GitCommitUsername o;
     GitCommitUserEmail := GitCommitUserEmail o; AutoMerge := AutoMerge o;
     NoVersion := NoVersion o; GitCredentials := GitCredentials o;
     Labels := Labels o; TemplateData := TemplateData o;
     PullRequestSHAs := PullRequestSHAs o; OptHelmer := OptHelmer o;
     GraphQLClient := GraphQLClient o; OptUpdateConfig := OptUpdateConfig o |}.
Definition setPullRequestBody (v : string) (o : Options) :=
  {| EPO := EPO o; Dir := Dir o; ConfigFile := ConfigFile o; Version := Version o;
     VersionFile := VersionFile o; PullRequestTitle := PullRequestTitle o;
     PullRequestBody := v;
     GitCommitUsername := GitCommitUsername o;
     GitCommitUserEmail := GitCommitUserEmail o; AutoMerge := AutoMerge o;
     NoVersion := NoVersion o; GitCredentials := GitCredentials o;
     Labels := Labels o; TemplateData := TemplateData o;
     PullRequestSHAs := PullRequestSHAs o; OptHelmer := OptHelmer o;
     GraphQLClient := GraphQLClient o; OptUpdateConfig := OptUpdateConfig o |}.
Definition setGitCommitUsername (v : string) (o : Options) :=
  {| EPO := EPO o; Dir := Dir o; ConfigFile := ConfigFile o; Version := Version o;
     VersionFile := VersionFile o; PullRequestTitle := PullRequestTitle o;
     PullRequestBody := PullRequestBody o;
     GitCommitUsername := v;
     GitCommitUserEmail := GitCommitUserEmail o; AutoMerge := AutoMerge o;
     NoVersion := NoVersion o; GitCredentials := GitCredentials o;
     Labels := Labels o; TemplateData := TemplateData o;
     PullRequestSHAs := PullRequestSHAs o; OptHelmer := OptHelmer o;
     GraphQLClient := GraphQLClient o; OptUpdateConfig := OptUpdateConfig o |}.
Definition setTemplateData (v : option (list (string * string))) (o : Options) :=
  {| EPO := EPO o; Dir := Dir o; ConfigFile := ConfigFile o; Version := Version o;
     VersionFile := VersionFile o; PullRequestTitle := PullRequestTitle o;
     PullRequestBody := PullRequestBody o;
     GitCommitUsername := GitCommitUsername o;
     GitCommitUserEmail := GitCommitUserEmail o; AutoMerge := AutoMerge o;
     NoVersion := NoVersion o; GitCredentials := GitCredentials o;
     Labels := Labels o; TemplateData := v;
     PullRequestSHAs := PullRequestSHAs o; OptHelmer := OptHelmer o;
     GraphQLClient := GraphQLClient o; OptUpdateConfig := OptUpdateConfig o |}.
Definition setPullRequestSHAs (v : option (list (string * string))) (o : Options) :=
  {| EPO := EPO o; Dir := Dir o; ConfigFile := ConfigFile o; Version := Version o;
     VersionFile := VersionFile o; PullRequestTitle := PullRequestTitle o;
     PullRequestBody := PullRequestBody o;
     GitCommitUsername := GitCommitUsername o;
     GitCommitUserEmail := GitCommitUserEmail o; AutoMerge := AutoMerge o;
     NoVersion := NoVersion o; GitCredentials := GitCredentials o;
     Labels := Labels o; TemplateData := TemplateData o;
     PullRequestSHAs := v; OptHelmer := OptHelmer o;
     GraphQLClient := GraphQLClient o; OptUpdateConfig := OptUpdateConfig o |}.
Definition setHelmer (v : option Helmer) (o : Options) :=
  {| EPO := EPO o; Dir := Dir o; ConfigFile := ConfigFile o; Version := Version o;
     VersionFile := VersionFile o; PullRequestTitle := PullRequestTitle o;
     PullRequestBody := PullRequestBody o;
     GitCommitUsername := GitCommitUsername o;
     GitCommitUserEmail := GitCommitUserEmail o; AutoMerge := AutoMerge o;
     NoVersion := NoVersion o; GitCredentials := GitCredentials o;
     Labels := Labels o; TemplateData := TemplateData o;
     PullRequestSHAs := PullRequestSHAs o; OptHelmer := v;
     GraphQLClient := GraphQLClient o; OptUpdateConfig := OptUpdateConfig o |}.
Definition setUpdateConfig (v : UpdateConfig) (o : Options) :=
  {| EPO := EPO o; Dir := Dir o; ConfigFile := ConfigFile o; Version := Version o;
     VersionFile := VersionFile o; PullRequestTitle := PullRequestTitle o;
     PullRequestBody := PullRequestBody o;
     GitCommitUsername := GitCommitUsername o;
     GitCommitUserEmail := GitCommitUserEmail o; AutoMerge := AutoMerge o;
     NoVersion := NoVersion o; GitCredentials := GitCredentials o;
     Labels := Labels o; TemplateData := TemplateData o;
     PullRequestSHAs := PullRequestSHAs o; OptHelmer := OptHelmer o;
     GraphQLClient := GraphQLClient o; OptUpdateConfig := v |}.

(** [o.UpdateConfig.Spec.Rules[i] = r], through the pointer [rule]. *)
Fixpoint setNth {A : Type} (i : nat) (v : A) (l : list A) : list A :=
  match l, i with
  | [], _ => []
  | _ :: t, O => v :: t
  | h :: t, S j => h :: setNth j v t
  end.

Definition rulesOf (o : Options) : list Rule := Rules (Spec (OptUpdateConfig o)).

Definition setRule (i : nat) (r : Rule) (o : Options) : Options :=
  setUpdateConfig {| Spec := {| Rules := setNth i r (rulesOf o) |} |} o.

(* ================================================================= *)
(** ** State, log and collaborators *)

(** A call of [log.Logger().Warnf] or [.Infof], kept as data.
    [Warnf_e] is the call that prints [err.Error()], [Infof_v] the one
    that prints a change with [%#v]. *)
Inductive logentry : Type :=
| Warnf (format : string) (args : list arg)
| Warnf_e (format : string) (err : error)
| Infof (format : string) (args : list arg)
| Infof_v (format : string) (v : Change).

(** The receiver [o], everything outside the process ([world]: file
    system, environment, remote repositories) and the log written so
    far. *)
Record State (World : Type) : Type := {
  opts : Options;
  world : World;
  logs : list logentry
}.
Arguments opts {World} s.
Arguments world {World} s.
Arguments logs {World} s.

Definition withOpts {World} (o : Options) (s : State World) : State World :=
  {| opts := o; world := world s; logs := logs s |}.
Definition withWorld {World} (w : World) (s : State World) : State World :=
  {| opts := opts s; world := w; logs := logs s |}.
Definition logf {World} (l : logentry) (s : State World) : State World :=
  {| opts := opts s; world := world s; logs := logs s ++ [l] |}.

(** A method of [*Options]: it may change the options, the world and
    the log, and it may panic. *)
Definition Eff (World A : Type) : Type := State World -> outcome (State World) A.

(** [setup.Options] as filled in by [Validate]. *)
Record GitSetup : Type := {
  SetupDir : string;
  DisableInClusterTest : bool;
  UserEmail : string;
  UserName : string;
  Password : string;
  GitProviderURL : string
}.

(** Everything [pr.go] calls and does not define. Library functions are
    typed by what they can reach: a function of the file system reads the
    world, a method of the embedded options sees only those, a method of
    [*Options] is an [Eff]. *)
Record Externals (World : Type) : Type := {
  strings_TrimSpace : string -> string;
  filepath_Join : list string -> string;
  files_FileExists : string -> World -> bool * option error;
  ioutil_ReadFile : string -> World -> string * option error;
  os_Getenv : string -> World -> string;
  yamls_LoadFile : string -> UpdateConfig -> World -> UpdateConfig * option error;
  gitdiscovery_FindGitURLFromDir : string -> bool -> World -> string * option error;
  scmhelpers_Validate : string -> GitClient -> World -> (string * string) * option error;
  FindGitToken : ScmClientFactory -> World -> ScmClientFactory * option error;
  Git : EnvironmentPullRequestOptions -> EnvironmentPullRequestOptions * GitClient;
  gitclient_EnsureUserAndEmailSetup :
    GitClient -> string -> string -> string -> World -> World * option error;
  setup_Run : GitSetup -> World -> GitSetup * World * option error;
  ApplyCommand : string -> string -> Change -> Command -> Eff World (option error);
  ApplyGo : string -> string -> Change -> GoChange -> Eff World (option error);
  ApplyRegex : string -> string -> Change -> Regex -> Eff World (option error);
  ApplyVersionStream :
    string -> string -> Change -> VersionStreamChange -> Eff World (option error);
  GoFindURLs : Rule -> Change -> GoChange -> Eff World (Rule * option error);
  AddPullRequest : PullRequest -> Eff World unit;
  Create :
    Eff World (option error) -> string -> string -> PullRequest -> bool ->
    Eff World (option PullRequest * option error)
}.
Arguments strings_TrimSpace {World} e.
Arguments filepath_Join {World} e.
Arguments files_FileExists {World} e.
Arguments ioutil_ReadFile {World} e.
Arguments os_Getenv {World} e.
Arguments yamls_LoadFile {World} e.
Arguments gitdiscovery_FindGitURLFromDir {World} e.
Arguments scmhelpers_Validate {World} e.
Arguments FindGitToken {World} e.
Arguments Git {World} e.
Arguments gitclient_EnsureUserAndEmailSetup {World} e.
Arguments setup_Run {World} e.
Arguments ApplyCommand {World} e.
Arguments ApplyGo {World} e.
Arguments ApplyRegex {World} e.
Arguments ApplyVersionStream {World} e.
Arguments GoFindURLs {World} e.
Arguments AddPullRequest {World} e.
Arguments Create {World} e.

(** [stringhelpers.StringArrayIndex] (jx-helpers): the index of the first
    element equal to [value], or -1. *)
Fixpoint StringArrayIndex (array : list string) (value : string) : Z :=
  match array with
  | [] => (-1)%Z
  | v :: rest =>
      if v =? value then 0%Z
      else
        let i := StringArrayIndex rest value in
        if (i <? 0)%Z then (-1)%Z else (i + 1)%Z
  end.

(** Modelled from the spec: [environments.LabelUpdatebot] is declared in
    jx-promote; the spec names the sentinel label "updatebot". *)
Definition LabelUpdatebot : string := "updatebot".

(** [a[i]] on a slice: out of range is a panic, here [None]. *)
Definition index {A : Type} (a : list A) (i : Z) : option A :=
  if (i <? 0)%Z then None else nth_error a (Z.to_nat i).

Definition len {A : Type} (a : list A) : Z := Z.of_nat (List.length a).

(* ================================================================= *)
(** ** The command *)

Section Engine.

Context {World : Type} (X : Externals World).

Abbreviation St := (State World).

(** *** Validate (lines 207-321)

    [Validate] cannot panic; each phase returns the state it leaves and
    the error it returns, if any. [andThen] is the fall-through of a
    block that ends without [return]. *)
Definition phase : Type := St -> St * option error.

Definition andThen (f g : phase) : phase :=
  fun s =>
    match f s with
    | (s', Some err) => (s', Some err)
    | (s', None) => g s'
    end.

(** Lines 208-213. *)
Definition initMaps : phase := fun s =>
  let o := opts s in
  let o := match TemplateData o with
           | None => setTemplateData (Some []) o
           | Some _ => o
           end in
  let o := match PullRequestSHAs o with
           | None => setPullRequestSHAs (Some []) o
           | Some _ => o
           end in
  (withOpts o s, None).

(** Lines 214-231. *)
Definition versionFromFile : phase := fun s =>
  let o := opts s in
  if Version o =? "" then
    let o := if VersionFile o =? ""
             then setVersionFile (filepath_Join X [Dir o; "VERSION"]) o
             else o in
    match files_FileExists X (VersionFile o) (world s) with
    | (_, Some err) =>
        (withOpts o s,
         Some (Wrapf err "failed to check for file %s" [AStr (VersionFile o)]))
    | (true, None) =>
        match ioutil_ReadFile X (VersionFile o) (world s) with
        | (_, Some err) =>
            (withOpts o s,
             Some (Wrapf err "failed to read version file %s"
                     [AStr (VersionFile o)]))
        | (data, None) =>
            (withOpts (setVersion (strings_TrimSpace X data) o) s, None)
        end
    | (false, None) =>
        (logf (Infof "version file %s does not exist" [AStr (VersionFile o)])
           (withOpts o s), None)
    end
  else (s, None).

(** Lines 232-237. *)
Definition versionFromEnv : phase := fun s =>
  let o := opts s in
  if Version o =? "" then
    let o := setVersion (os_Getenv X "VERSION" (world s)) o in
    if (Version o =? "") && negb (NoVersion o)
    then (withOpts o s, Some (MissingOption "version"))
    else (withOpts o s, None)
  else (s, None).

(** Lines 239-254. *)
Definition loadConfigFile : phase := fun s =>
  let o := opts s in
  let o := if ConfigFile o =? ""
           then setConfigFile (filepath_Join X [Dir o; ".jx"; "updatebot.yaml"]) o
           else o in
  match files_FileExists X (ConfigFile o) (world s) with
  | (_, Some err) =>
      (withOpts o s,
       Some (Wrapf err "failed to check for file %s" [AStr (ConfigFile o)]))
  | (true, None) =>
      match yamls_LoadFile X (ConfigFile o) (OptUpdateConfig o) (world s) with
      | (cfg, Some err) =>
          (withOpts (setUpdateConfig cfg o) s,
           Some (Wrapf err "failed to load config file %s" [AStr (ConfigFile o)]))
      | (cfg, None) => (withOpts (setUpdateConfig cfg o) s, None)
      end
  | (false, None) =>
      (logf (Warnf "file %s does not exist so cannot create any updatebot Pull Requests"
               [AStr (ConfigFile o)])
         (withOpts o s), None)
  end.

(** Lines 256-258. *)
Definition defaultHelmer : phase := fun s =>
  let o := opts s in
  match OptHelmer o with
  | None => (withOpts (setHelmer (Some (HelmCLI "helm" (Dir o) false)) o) s, None)
  | Some _ => (s, None)
  end.

(** Lines 260-266. *)
Definition gitIdentity : phase := fun s =>
  let o := opts s in
  let (e, g) := Git X (EPO o) in
  let o := setEPO e o in
  match gitclient_EnsureUserAndEmailSetup X g (Dir o) (GitCommitUsername o)
          (GitCommitUserEmail o) (world s) with
  | (w, Some err) =>
      (withWorld w (withOpts o s),
       Some (Wrapf err "failed to setup git user and email" []))
  | (w, None) => (withWorld w (withOpts o s), None)
  end.

(** Lines 270-284. *)
Definition discoverServer : phase := fun s =>
  let o := opts s in
  if GitServerURL (Factory (EPO o)) =? "" then
    let (e, g) := Git X (EPO o) in
    let o := setEPO e o in
    match scmhelpers_Validate X (Dir o) g (world s) with
    | (_, Some err) =>
        (withOpts o s, Some (Wrapf err "failed to discover repository details" []))
    | ((server, token), None) =>
        let f := setGitToken token (setGitServerURL server (Factory (EPO o))) in
        (withOpts (setEPO (setFactory f (EPO o)) o) s, None)
    end
  else (s, None).

(** Lines 285-291. *)
Definition findToken : phase := fun s =>
  let o := opts s in
  if GitServerURL (Factory (EPO o)) =? "" then
    (s, Some (Errorf "no git-server could be found" []))
  else
    match FindGitToken X (Factory (EPO o)) (world s) with
    | (f, Some err) =>
        (withOpts (setEPO (setFactory f (EPO o)) o) s,
         Some (Wrapf err "failed to find git token" []))
    | (f, None) => (withOpts (setEPO (setFactory f (EPO o)) o) s, None)
    end.

(** Lines 268-292. *)
Definition gitToken : phase := fun s =>
  if GitToken (Factory (EPO (opts s))) =? ""
  then andThen discoverServer findToken s
  else (s, None).

(** Lines 293-301. *)
Definition commitUsername : phase := fun s =>
  let o := opts s in
  let o := if GitCommitUsername o =? ""
           then setGitCommitUsername (GitUsername (Factory (EPO o))) o else o in
  let o := if GitCommitUsername o =? ""
           then setGitCommitUsername (os_Getenv X "GIT_USERNAME" (world s)) o
           else o in
  let o := if GitCommitUsername o =? ""
           then setGitCommitUsername "jenkins-x-bot" o else o in
  (withOpts o s, None).

(** Lines 303-319. *)
Definition gitCredentials : phase := fun s =>
  let o := opts s in
  if GitCredentials o then
    if GitToken (Factory (EPO o)) =? "" then
      (s, Some (Errorf
                  "missing git token environment variable. Try setting GIT_TOKEN or GITHUB_TOKEN"
                  []))
    else
      let gc := {| SetupDir := Dir o; DisableInClusterTest := true;
                   UserEmail := GitCommitUserEmail o;
                   UserName := GitCommitUsername o;
                   Password := GitToken (Factory (EPO o));
                   GitProviderURL := "https://github.com" |} in
      match setup_Run X gc (world s) with
      | (_, w, Some err) =>
          (withWorld w s, Some (Wrapf err "failed to setup git credentials file" []))
      | (gc, w, None) =>
          (logf (Infof "setup git credentials file for user %s and email %s"
                   [AStr (UserName gc); AStr (UserEmail gc)])
             (withWorld w s), None)
      end
  else (s, None).

Definition Validate : phase :=
  andThen initMaps
    (andThen versionFromFile
       (andThen versionFromEnv
          (andThen loadConfigFile
             (andThen defaultHelmer
                (andThen gitIdentity
                   (andThen gitToken
                      (andThen commitUsername gitCredentials))))))).

(** *** ApplyChanges (lines 323-339) *)
Definition ApplyChanges (dir gitURL : string) (change : Change)
  : Eff World (option error) :=
  match ChangeCommand change with
  | Some c => ApplyCommand X dir gitURL change c
  | None =>
  match ChangeGo change with
  | Some g => ApplyGo X dir gitURL change g
  | None =>
  match ChangeRegex change with
  | Some r => ApplyRegex X dir gitURL change r
  | None =>
  match ChangeVersionStream change with
  | Some v => ApplyVersionStream X dir gitURL change v
  | None =>
      fun s => Return (logf (Infof_v "ignoring unknown change %#v" change) s) None
  end end end end.

(** *** FindURLs (lines 341-352)

    [rule] is a pointer: the rule is threaded through the loop and
    written back by the caller. The loop ranges over the changes the
    rule had when the loop started. *)
Fixpoint findURLsLoop (changes : list Change) (rule : Rule)
  : Eff World (Rule * option error) :=
  fun s =>
    match changes with
    | [] => Return s (rule, None)
    | change :: rest =>
        match ChangeGo change with
        | Some g =>
            match GoFindURLs X rule change g s with
            | Panicked => Panicked
            | Return s' (rule', Some err) =>
                Return s'
                  (rule', Some (Wrapf err "failed to find go repositories to update" []))
            | Return s' (rule', None) => findURLsLoop rest rule' s'
            end
        | None => findURLsLoop rest rule s
        end
    end.

Definition FindURLs (rule : Rule) : Eff World (Rule * option error) :=
  findURLsLoop (Changes rule) rule.

(** *** The change function (lines 162-181) *)

(** Lines 165-171. *)
Fixpoint applyLoop (dir gitURL : string) (changes : list Change)
  : Eff World (option error) :=
  fun s =>
    match changes with
    | [] => Return s None
    | ch :: rest =>
        match ApplyChanges dir gitURL ch s with
        | Panicked => Panicked
        | Return s' (Some err) =>
            Return s' (Some (Wrapf err "failed to apply change" []))
        | Return s' None => applyLoop dir gitURL rest s'
        end
    end.

(** Lines 173-175: [None] is the index-out-of-range panic. *)
Definition defaultTitle (gitURL version : string) : option string :=
  let gitURLpart := strings.Split gitURL "/" in
  match index gitURLpart (len gitURLpart - 2) with
  | None => None
  | Some org =>
      match index gitURLpart (len gitURLpart - 1) with
      | None => None
      | Some name =>
          let repository := org ++ "/" ++ name in
          Some ("chore(deps): upgrade " ++ repository ++ " to version " ++ version)
      end
  end.

(** Lines 172-180. *)
Definition defaultTitles (gitURL : string) : Eff World (option error) :=
  fun s =>
    let o := opts s in
    let titled :=
      if PullRequestTitle o =? "" then
        match defaultTitle gitURL (Version o) with
        | None => None
        | Some t => Some (setPullRequestTitle t o)
        end
      else Some o in
    match titled with
    | None => Panicked
    | Some o =>
        let o := if CommitTitle (EPO o) =? ""
                 then setEPO (setCommitTitle (PullRequestTitle o) (EPO o)) o
                 else o in
        Return (withOpts o s) None
    end.

(** The closure assigned to [o.Function] for [rule] and [gitURL]. *)
Definition Function (rule : Rule) (gitURL : string) : Eff World (option error) :=
  fun s =>
    let dir := OutDir (EPO (opts s)) in
    match applyLoop dir gitURL (Changes rule) s with
    | Panicked => Panicked
    | Return s' (Some err) => Return s' (Some err)
    | Return s' None => defaultTitles gitURL s'
    end.

(** *** Run (lines 104-205) *)

(** Lines 110-125. *)
Definition discoverMessage (s : St) : St :=
  let o := opts s in
  if (PullRequestBody o =? "") || (CommitMessage (EPO o) =? "") then
    match gitdiscovery_FindGitURLFromDir X (Dir o) true (world s) with
    | (_, Some err) => logf (Warnf_e "failed to find git URL %s" err) s
    | (gitURL, None) =>
        if negb (gitURL =? "") then
          let message := "from: " ++ gitURL ++ String (ascii_of_nat 10) "" in
          let o := if PullRequestBody o =? "" then setPullRequestBody message o else o in
          let o := if CommitMessage (EPO o) =? ""
                   then setEPO (setCommitMessage message (EPO o)) o else o in
          withOpts o s
        else s
    end
  else s.

(** Lines 144-145. *)
Definition clearBranchName (o : Options) : Options :=
  setEPO (setBranchName "" (EPO o)) o.

(** Lines 147-160. *)
Definition newDetails (o : Options) : PullRequest :=
  {| Source := "";
     Title := PullRequestTitle o;
     Body := PullRequestBody o;
     Draft := false;
     PRLabels := map (fun label => {| LabelName := label; LabelDescription := label |})
                   (Labels o) |}.

(** Lines 183-191. *)
Definition reuseExisting (o : Options) : Options :=
  if AutoMerge o then
    let f := match Filter (EPO o) with
             | None => {| FilterLabels := [] |}
             | Some f => f
             end in
    let f := if (StringArrayIndex (FilterLabels f) LabelUpdatebot <? 0)%Z
             then {| FilterLabels := FilterLabels f ++ [LabelUpdatebot] |}
             else f in
    setEPO (setFilter (Some f) (EPO o)) o
  else o.

(** One call of [Create] as [Run] makes it: the receiver at the call,
    the arguments, and the error the call returned ([None] for [nil] and
    for a panic). The list of these calls is the trace of a run; it is
    ghost state and no collaborator can touch it. *)
Record CreateCall : Type := {
  callOpts : Options;
  callURL : string;
  callDir : string;
  callDetails : PullRequest;
  callAutoMerge : bool;
  callErr : option error
}.

(** The state and the call of [Create] for [gitURL] (lines 144-193). *)
Definition prepare (s : St) : St :=
  withOpts (reuseExisting (clearBranchName (opts s))) s.

Definition callFor (gitURL : string) (s : St) (err : option error) : CreateCall :=
  {| callOpts := opts (prepare s);
     callURL := gitURL;
     callDir := "";
     callDetails := newDetails (clearBranchName (opts s));
     callAutoMerge := AutoMerge (opts (prepare s));
     callErr := err |}.

(** Lines 138-202 for rule number [i]. *)
Fixpoint urlLoop (i : nat) (rule : Rule) (urls : list string) (s : St)
  : list CreateCall * outcome St (option error) :=
  match urls with
  | [] => ([], Return s None)
  | gitURL :: rest =>
      if gitURL =? "" then
        urlLoop i rule rest
          (logf (Warnf "missing out repository %d as it has no git URL" [AInt i]) s)
      else
        let c := callFor gitURL s in
        match Create X (Function rule gitURL) gitURL (callDir (c None))
                (callDetails (c None)) (callAutoMerge (c None)) (prepare s) with
        | Panicked => ([c None], Panicked)
        | Return s' (_, Some err) =>
            ([c (Some err)],
             Return s'
               (Some (Wrapf err "failed to create Pull Request on repository %s"
                        [AStr gitURL])))
        | Return s' (None, None) =>
            let (t, r) := urlLoop i rule rest
                            (logf (Infof "no Pull Request created" []) s') in
            (c None :: t, r)
        | Return s' (Some pr, None) =>
            match AddPullRequest X pr s' with
            | Panicked => ([c None], Panicked)
            | Return s'' _ =>
                let (t, r) := urlLoop i rule rest s'' in (c None :: t, r)
            end
        end
  end.

(** Lines 128-202: one iteration of the loop over the rules. *)
Definition ruleStep (i : nat) (s : St)
  : list CreateCall * outcome St (option error) :=
  match nth_error (rulesOf (opts s)) i with
  | None => ([], Panicked)
  | Some rule =>
      match FindURLs rule s with
      | Panicked => ([], Panicked)
      | Return s (rule, err) =>
          let s := withOpts (setRule i rule (opts s)) s in
          match err with
          | Some err => ([], Return s (Some (Wrapf err "failed to find URLs" [])))
          | None =>
              let s := withOpts (setEPO (setFork (RuleFork rule) (EPO (opts s))) (opts s)) s in
              let s := if (len (URLs rule) =? 0)%Z
                       then logf (Warnf "no URLs to process for rule %d" [AInt i]) s
                       else s in
              urlLoop i rule (URLs rule) s
          end
      end
  end.

(** Lines 127-204: [n] iterations starting at rule number [i]. *)
Fixpoint rulesLoop (n i : nat) (s : St)
  : list CreateCall * outcome St (option error) :=
  match n with
  | O => ([], Return s None)
  | S n' =>
      match ruleStep i s with
      | (t, Return s' None) =>
          let (t', r) := rulesLoop n' (S i) s' in ((t ++ t')%list, r)
      | (t, r) => (t, r)
      end
  end.

Definition Run (s : St) : list CreateCall * outcome St (option error) :=
  match Validate s with
  | (s, Some err) => ([], Return s (Some (Wrapf err "failed to validate" [])))
  | (s, None) =>
      let s := discoverMessage s in
      rulesLoop (List.length (rulesOf (opts s))) 0 s
  end.

End Engine.

(* ================================================================= *)
(** ** Fake collaborators

    A small world in which the command can be run: files and environment
    variables are association lists, a change is applied by recording it,
    a command whose text is "false" fails, and [Create] runs the change
    function and opens a pull request from the details it was given. *)

Module Fake.

Record World : Type := {
  files : list (string * string);
  env : list (string * string);
  applied : list (string * string);
  recorded : list PullRequest
}.

Fixpoint lookup (k : string) (m : list (string * string)) : option string :=
  match m with
  | [] => None
  | (k', v) :: rest => if k' =? k then Some v else lookup k rest
  end.

Definition isSpace (c : ascii) : bool :=
  match nat_of_ascii c with
  | 9 | 10 | 11 | 12 | 13 | 32 => true
  | _ => false
  end.

Fixpoint trimLeft (s : string) : string :=
  match s with
  | EmptyString => EmptyString
  | String c s' => if isSpace c then trimLeft s' else s
  end.

Fixpoint trimRight (s : string) : string :=
  match s with
  | EmptyString => EmptyString
  | String c s' =>
      let r := trimRight s' in
      if isSpace c && (r =? "") then EmptyString else String c r
  end.

(** [strings.TrimSpace] on ASCII text. *)
Definition TrimSpace (s : string) : string := trimRight (trimLeft s).

(** [filepath.Join] on clean elements. *)
Fixpoint Join (elem : list string) : string :=
  match elem with
  | [] => ""
  | [e] => e
  | e :: rest => e ++ "/" ++ Join rest
  end.

Definition apply (gitURL text : string) : Eff World (option error) :=
  fun s =>
    let w := world s in
    Return (withWorld {| files := files w; env := env w;
                         applied := applied w ++ [(gitURL, text)];
                         recorded := recorded w |} s) None.

Definition applyCommand (dir gitURL : string) (change : Change) (c : Command)
  : Eff World (option error) :=
  if CommandText c =? "false"
  then fun s => Return s (Some (Errorf "exit status 1" []))
  else apply gitURL (CommandText c).

Definition addPullRequest (pr : PullRequest) : Eff World unit :=
  fun s =>
    let w := world s in
    Return (withWorld {| files := files w; env := env w; applied := applied w;
                         recorded := recorded w ++ [pr] |} s) tt.

(** Modelled from the spec: [Create] of the external pull-request
    collaborator (section 4.4) runs the deferred change function, returns
    [nil] and the error when it fails, and a pull request otherwise. *)
Definition create (Function : Eff World (option error))
  (gitURL prDir : string) (details : PullRequest) (autoMerge : bool)
  : Eff World (option PullRequest * option error) :=
  fun s =>
    match Function s with
    | Panicked => Panicked
    | Return s' (Some err) =>
        Return s' (None, Some (Wrapf err "failed to invoke change function" []))
    | Return s' None => Return s' (Some details, None)
    end.

Definition git (e : EnvironmentPullRequestOptions)
  : EnvironmentPullRequestOptions * GitClient :=
  match Gitter e with
  | Some g => (e, g)
  | None =>
      ({| Factory := Factory e; Gitter := Some (GitClientHandle 0);
          OutDir := OutDir e; BranchName := BranchName e;
          CommitTitle := CommitTitle e; CommitMessage := CommitMessage e;
          Fork := Fork e; Filter := Filter e |}, GitClientHandle 0)
  end.

Definition X : Externals World := {|
  strings_TrimSpace := TrimSpace;
  filepath_Join := Join;
  files_FileExists := fun p w =>
    (match lookup p (files w) with Some _ => true | None => false end, None);
  ioutil_ReadFile := fun p w =>
    match lookup p (files w) with
    | Some data => (data, None)
    | None => ("", Some (Errorf "open %s: no such file or directory" [AStr p]))
    end;
  os_Getenv := fun k w =>
    match lookup k (env w) with Some v => v | None => "" end;
  yamls_LoadFile := fun _ cfg _ => (cfg, None);
  gitdiscovery_FindGitURLFromDir := fun _ _ _ => ("", None);
  scmhelpers_Validate := fun _ _ _ => (("https://github.com", "token"), None);
  FindGitToken := fun f _ => (f, None);
  Git := git;
  gitclient_EnsureUserAndEmailSetup := fun _ _ _ _ w => (w, None);
  setup_Run := fun gc w => (gc, w, None);
  ApplyCommand := applyCommand;
  ApplyGo := fun _ gitURL _ g => apply gitURL (GoText g);
  ApplyRegex := fun _ gitURL _ r => apply gitURL (RegexText r);
  ApplyVersionStream := fun _ gitURL _ v => apply gitURL (VersionStreamText v);
  GoFindURLs := fun rule _ _ s => Return s (rule, None);
  AddPullRequest := addPullRequest;
  Create := create
|}.

(** The options of [NewCmdPullRequest] before any flag is parsed, with
    a token configured. *)
Definition options (version title : string) (rules : list Rule) : Options := {|
  EPO := {| Factory := {| GitServerURL := "https://github.com";
                          GitToken := "token"; GitUsername := "bot" |};
            Gitter := None; OutDir := "/tmp/out"; BranchName := "";
            CommitTitle := ""; CommitMessage := ""; Fork := false;
            Filter := None |};
  Dir := "."; ConfigFile := ""; Version := version; VersionFile := "";
  PullRequestTitle := title; PullRequestBody := "";
  GitCommitUsername := ""; GitCommitUserEmail := "";
  AutoMerge := true; NoVersion := false; GitCredentials := false;
  Labels := []; TemplateData := None; PullRequestSHAs := None;
  OptHelmer := None; GraphQLClient := None;
  OptUpdateConfig := {| Spec := {| Rules := rules |} |}
|}.

Definition emptyWorld : World :=
  {| files := []; env := []; applied := []; recorded := [] |}.

Definition start (o : Options) (w : World) : State World :=
  {| opts := o; world := w; logs := [] |}.

Definition command (text : string) : Change :=
  {| ChangeCommand := Some {| CommandText := text |}; ChangeGo := None;
     ChangeRegex := None; ChangeVersionStream := None |}.

Definition unknown : Change :=
  {| ChangeCommand := None; ChangeGo := None;
     ChangeRegex := None; ChangeVersionStream := None |}.

(** Sample configuration. *)
Definition widgets : string := "https://github.com/acme/widgets.git".
Definition gadgets : string := "https://github.com/acme/gadgets".
Definition thing : string := "https://github.com/other/thing".

Definition rule (urls : list string) (changes : list Change) : Rule :=
  {| URLs := urls; Changes := changes; RuleFork := false |}.

(** Two repositories, one change that succeeds. *)
Definition twoRepositories : Rule := rule [gadgets; thing] [command "make"].

(** Two repositories, the second of three changes fails. *)
Definition failing : Rule :=
  rule [gadgets; thing] [command "make"; command "false"; command "test"].

(** A rule without URLs. *)
Definition idle : Rule := rule [] [command "make"].

(** A version file and a VERSION variable. *)
Definition versioned : World :=
  {| files := [("./VERSION", " 1.0.0" ++ String (ascii_of_nat 10) "")];
     env := [("VERSION", "2.0.0")]; applied := []; recorded := [] |}.

End Fake.

(* ================================================================= *)
(** ** Collaborators that fail

    The fake collaborators with a file system and a discovery that can
    fail: a path under "locked/" cannot be checked, a path under
    "unreadable/" exists and cannot be read, the discovery for the Go
    change "broken" fails and any other Go change adds its text to the
    URLs of the rule. *)

Module Sample.

Definition FileExists (p : string) (w : Fake.World) : bool * option error :=
  if prefix "locked/" p
  then (false, Some (Errorf "stat %s: permission denied" [AStr p]))
  else if prefix "unreadable/" p then (true, None)
  else files_FileExists Fake.X p w.

Definition ReadFile (p : string) (w : Fake.World) : string * option error :=
  if prefix "unreadable/" p
  then ("", Some (Errorf "read %s: input/output error" [AStr p]))
  else ioutil_ReadFile Fake.X p w.

Definition goFindURLs (rule : Rule) (change : Change) (g : GoChange)
  : Eff Fake.World (Rule * option error) :=
  fun s =>
    if GoText g =? "broken"
    then Return s (rule, Some (Errorf "exit status 1" []))
    else Return s ({| URLs := URLs rule ++ [GoText g];
                      Changes := Changes rule;
                      RuleFork := RuleFork rule |}, None).

Definition X : Externals Fake.World := {|
  strings_TrimSpace := strings_TrimSpace Fake.X;
  filepath_Join := filepath_Join Fake.X;
  files_FileExists := FileExists;
  ioutil_ReadFile := ReadFile;
  os_Getenv := os_Getenv Fake.X;
  yamls_LoadFile := yamls_LoadFile Fake.X;
  gitdiscovery_FindGitURLFromDir := gitdiscovery_FindGitURLFromDir Fake.X;
  scmhelpers_Validate := scmhelpers_Validate Fake.X;
  FindGitToken := FindGitToken Fake.X;
  Git := Git Fake.X;
  gitclient_EnsureUserAndEmailSetup := gitclient_EnsureUserAndEmailSetup Fake.X;
  setup_Run := setup_Run Fake.X;
  ApplyCommand := ApplyCommand Fake.X;
  ApplyGo := ApplyGo Fake.X;
  ApplyRegex := ApplyRegex Fake.X;
  ApplyVersionStream := ApplyVersionStream Fake.X;
  GoFindURLs := goFindURLs;
  AddPullRequest := AddPullRequest Fake.X;
  Create := Create Fake.X
|}.

(** A [Create] that, like the pull-request collaborator, leaves the
    name of the branch it pushed in the options. *)
Definition createOnBranch (Function : Eff Fake.World (option error))
  (gitURL prDir : string) (details : PullRequest) (autoMerge : bool)
  : Eff Fake.World (option PullRequest * option error) :=
  fun s =>
    match Create Fake.X Function gitURL prDir details autoMerge s with
    | Return s' r =>
        Return (withOpts (setEPO (setBranchName ("pr-" ++ gitURL) (EPO (opts s')))
                            (opts s')) s') r
    | Panicked => Panicked
    end.

Definition branching : Externals Fake.World := {|
  strings_TrimSpace := strings_TrimSpace Fake.X;
  filepath_Join := filepath_Join Fake.X;
  files_FileExists := files_FileExists Fake.X;
  ioutil_ReadFile := ioutil_ReadFile Fake.X;
  os_Getenv := os_Getenv Fake.X;
  yamls_LoadFile := yamls_LoadFile Fake.X;
  gitdiscovery_FindGitURLFromDir := gitdiscovery_FindGitURLFromDir Fake.X;
  scmhelpers_Validate := scmhelpers_Validate Fake.X;
  FindGitToken := FindGitToken Fake.X;
  Git := Git Fake.X;
  gitclient_EnsureUserAndEmailSetup := gitclient_EnsureUserAndEmailSetup Fake.X;
  setup_Run := setup_Run Fake.X;
  ApplyCommand := ApplyCommand Fake.X;
  ApplyGo := ApplyGo Fake.X;
  ApplyRegex := ApplyRegex Fake.X;
  ApplyVersionStream := ApplyVersionStream Fake.X;
  GoFindURLs := GoFindURLs Fake.X;
  AddPullRequest := AddPullRequest Fake.X;
  Create := createOnBranch
|}.

Definition go (text : string) : Change :=
  {| ChangeCommand := None; ChangeGo := Some {| GoText := text |};
     ChangeRegex := None; ChangeVersionStream := None |}.

(** A rule whose second discovery fails. *)
Definition broken : Rule :=
  Fake.rule [] [go Fake.gadgets; go "broken"; Fake.command "make"].

(** A rule with an empty entry and a repeated repository. *)
Definition repeated : Rule :=
  Fake.rule [Fake.gadgets; ""; Fake.thing; Fake.gadgets] [Fake.command "make"].

End Sample.

(* ================================================================= *)
(** ** Observations used in the statements *)

(** The title the options hold after a call that returned [nil]. *)
Definition titleAfter {World} (r : outcome (State World) (option error))
  : option string :=
  match r with
  | Return s None => Some (PullRequestTitle (opts s))
  | _ => None
  end.

(** [strings.IndexByte(s, c) >= 0]. *)
Fixpoint containsByte (s : string) (c : ascii) : bool :=
  match s with
  | EmptyString => false
  | String b s' => Ascii.eqb b c || containsByte s' c
  end.

(** The labels of the pull-request filter; none when the filter is nil. *)
Definition filterLabels (o : Options) : list string :=
  match Filter (EPO o) with
  | Some f => FilterLabels f
  | None => []
  end.

(** Sequencing of two parts of the run: the second part runs when the
    first returned [nil], and the traces add up. *)
Definition thenRun {World}
  (r : list CreateCall * outcome (State World) (option error))
  (k : State World -> list CreateCall * outcome (State World) (option error))
  : list CreateCall * outcome (State World) (option error) :=
  match r with
  | (t, Return s None) => let (t', r') := k s in ((t ++ t')%list, r')
  | _ => r
  end.

(** How a trace and a result fit together: either no call of the trace
    returned an error, or the last call did, and the result is that
    error wrapped with the repository of the call. *)
Inductive ended {World} :
  list CreateCall -> outcome (State World) (option error) -> Prop :=
| ended_clean t r :
    Forall (fun c => callErr c = None) t -> ended t r
| ended_failed t c err s :
    Forall (fun c => callErr c = None) t ->
    callErr c = Some err ->
    ended (t ++ [c])%list
      (Return s
         (Some (Wrapf err "failed to create Pull Request on repository %s"
                  [AStr (callURL c)]))).

(** Modelled from the spec: the precedence of the version sources as the
    specification words it (explicit flag, then the version file, then
    the VERSION environment variable). [file] is the trimmed contents of
    the version file when it exists. *)
Definition versionByPrecedence (explicit : string) (file : option string)
  (fromEnv : string) : string :=
  if negb (explicit =? "") then explicit
  else
    match file with
    | Some v => if negb (v =? "") then v else fromEnv
    | None => fromEnv
    end.

(** The path [Validate] reads the version from. *)
Definition versionFilePath {World} (X : Externals World) (o : Options) : string :=
  if VersionFile o =? "" then filepath_Join X [Dir o; "VERSION"] else VersionFile o.

(** Lines 214-237 of [Validate]. *)
Definition resolveVersion {World} (X : Externals World) : phase (World := World) :=
  andThen (versionFromFile X) (versionFromEnv X).

(** Lines 239-320 of [Validate]. *)
Definition afterVersion {World} (X : Externals World) : phase (World := World) :=
  andThen (loadConfigFile X)
    (andThen defaultHelmer
       (andThen (gitIdentity X)
          (andThen (gitToken X)
             (andThen (commitUsername X) (gitCredentials X))))).

(** A phase that neither assigns [o.Version] nor reports the missing
    version. *)
Definition keepsVersion {World} (f : phase (World := World)) : Prop :=
  forall s,
    Version (opts (fst (f s))) = Version (opts s)
    /\ snd (f s) <> Some (MissingOption "version").

(* ----------------------------------------------------------------- *)
(** *** Further observations *)

(** [strings.Join(elems, sep)]. *)
Fixpoint joinWith (sep : string) (elems : list string) : string :=
  match elems with
  | [] => ""
  | [e] => e
  | e :: rest => e ++ sep ++ joinWith sep rest
  end.

(** The title the source formats for [repository] and [version]
    (line 175). *)
Definition titleFor (repository version : string) : string :=
  "chore(deps): upgrade " ++ repository ++ " to version " ++ version.

(** The errors [Run] returns: each is a failure wrapped with the step
    that met it. *)
Inductive RunError : error -> Prop :=
| ValidateFailed cause :
    RunError (Wrapf cause "failed to validate" [])
| FindURLsFailed cause :
    RunError (Wrapf cause "failed to find URLs" [])
| CreateFailed cause gitURL :
    gitURL <> "" ->
    RunError (Wrapf cause "failed to create Pull Request on repository %s"
                [AStr gitURL]).

(** What a phase of [Validate] guarantees from a state in [P]: [always]
    for the state it leaves whether or not it fails, [onSuccess] for the
    state it leaves when it returns nil. *)
Definition always {World} (P : State World -> Prop) (f : phase (World := World))
  (Q : State World -> Prop) : Prop :=
  forall s, P s -> Q (fst (f s)).

Definition onSuccess {World} (P : State World -> Prop) (f : phase (World := World))
  (Q : State World -> Prop) : Prop :=
  forall s, P s -> snd (f s) = None -> Q (fst (f s)).

(** The options of the command line that [Validate] only reads. *)
Definition flagsOf (o : Options)
  : string * string * string * string * bool * bool * bool * list string
    * option GraphQL :=
  (Dir o, PullRequestTitle o, PullRequestBody o, GitCommitUserEmail o,
   AutoMerge o, NoVersion o, GitCredentials o, Labels o, GraphQLClient o).

(** The path [Validate] loads the configuration from. *)
Definition configFilePath {World} (X : Externals World) (o : Options) : string :=
  if ConfigFile o =? ""
  then filepath_Join X [Dir o; ".jx"; "updatebot.yaml"]
  else ConfigFile o.

(** Lines 239-320 of [Validate] without the loading of the
    configuration (lines 256-320). *)
Definition afterConfig {World} (X : Externals World) : phase (World := World) :=
  andThen defaultHelmer
    (andThen (gitIdentity X)
       (andThen (gitToken X)
          (andThen (commitUsername X) (gitCredentials X)))).

Ltac unfold_phases :=
  unfold afterConfig, afterVersion, resolveVersion, initMaps, versionFromFile,
    versionFromEnv, loadConfigFile, defaultHelmer, gitIdentity, gitToken,
    discoverServer, findToken, commitUsername, gitCredentials, andThen in *.

Ltac split_matches :=
  repeat match goal with
         | |- context [match ?x with _ => _ end] => destruct x eqn:?
         end.

(* ----------------------------------------------------------------- *)
(** *** What Create is handed *)

(** The collaborators [X] with a [Create] that checks what it is handed:
    it panics when [P] fails on its arguments and on the state it
    receives, and is [X]'s [Create] otherwise. A run is the same with
    and without the check exactly when every call passes it. *)
Definition guarded {World}
  (P : string -> string -> PullRequest -> bool -> State World -> bool)
  (X : Externals World) : Externals World := {|
  strings_TrimSpace := strings_TrimSpace X;
  filepath_Join := filepath_Join X;
  files_FileExists := files_FileExists X;
  ioutil_ReadFile := ioutil_ReadFile X;
  os_Getenv := os_Getenv X;
  yamls_LoadFile := yamls_LoadFile X;
  gitdiscovery_FindGitURLFromDir := gitdiscovery_FindGitURLFromDir X;
  scmhelpers_Validate := scmhelpers_Validate X;
  FindGitToken := FindGitToken X;
  Git := Git X;
  gitclient_EnsureUserAndEmailSetup := gitclient_EnsureUserAndEmailSetup X;
  setup_Run := setup_Run X;
  ApplyCommand := ApplyCommand X;
  ApplyGo := ApplyGo X;
  ApplyRegex := ApplyRegex X;
  ApplyVersionStream := ApplyVersionStream X;
  GoFindURLs := GoFindURLs X;
  AddPullRequest := AddPullRequest X;
  Create := fun Function gitURL prDir details autoMerge s =>
    if P gitURL prDir details autoMerge s
    then Create X Function gitURL prDir details autoMerge s
    else Panicked
|}.

Definition sameStrings (a b : list string) : bool :=
  if list_eq_dec string_dec a b then true else false.

(** [Create] receives options whose branch name is empty. *)
Definition branchCleared {World}
  (gitURL prDir : string) (details : PullRequest) (autoMerge : bool)
  (s : State World) : bool :=
  BranchName (EPO (opts s)) =? "".

(** With AutoMerge on, [Create] receives a filter that holds the
    "updatebot" label. *)
Definition labelEnsured {World}
  (gitURL prDir : string) (details : PullRequest) (autoMerge : bool)
  (s : State World) : bool :=
  implb (AutoMerge (opts s))
    (1 <=? count_occ string_dec (filterLabels (opts s)) LabelUpdatebot)%nat.

(** [Create] receives a filter with exactly the labels [labels]. *)
Definition labelsAre {World} (labels : list string)
  (gitURL prDir : string) (details : PullRequest) (autoMerge : bool)
  (s : State World) : bool :=
  sameStrings (filterLabels (opts s)) labels.

(** The labels a step that starts with the options [o] hands over:
    those of [o], and "updatebot" after them when AutoMerge is on and
    the label is not among them. *)
Definition labelsFor (o : Options) : list string :=
  (filterLabels o
   ++ (if AutoMerge o
          && (count_occ string_dec (filterLabels o) LabelUpdatebot =? 0)%nat
       then [LabelUpdatebot] else []))%list.

(** [Create] receives the git URL [url]. *)
Definition urlIs {World} (url : string)
  (gitURL prDir : string) (details : PullRequest) (autoMerge : bool)
  (s : State World) : bool :=
  gitURL =? url.

(** [Create] receives a non-empty git URL. *)
Definition urlGiven {World}
  (gitURL prDir : string) (details : PullRequest) (autoMerge : bool)
  (s : State World) : bool :=
  negb (gitURL =? "").

(** [Create] receives an empty directory, the AutoMerge option of the
    options it receives, and details that are no draft, have no source
    branch, carry the title and the body of those options and one label
    per label name of those options, the description equal to the
    name. *)
Definition detailsMatch {World}
  (gitURL prDir : string) (details : PullRequest) (autoMerge : bool)
  (s : State World) : bool :=
  (prDir =? "")
  && Bool.eqb autoMerge (AutoMerge (opts s))
  && negb (Draft details)
  && (Source details =? "")
  && (Title details =? PullRequestTitle (opts s))
  && (Body details =? PullRequestBody (opts s))
  && sameStrings (map LabelName (PRLabels details)) (Labels (opts s))
  && sameStrings (map LabelDescription (PRLabels details)) (Labels (opts s)).

(** The options [o] with the branch name [b]. *)
Definition onBranch {World} (b : string) (s : State World) : State World :=
  withOpts (setEPO (setBranchName b (EPO (opts s))) (opts s)) s.

Ltac split_phase :=
  repeat match goal with
         | |- context [match ?x with _ => _ end] => destruct x eqn:?
         end;
  simpl; split; solve [reflexivity | discriminate].

(* ================================================================= *)
(** ** strings.Split *)

Lemma append_assoc (a b c : string) : (a ++ b) ++ c = a ++ (b ++ c).
Proof.
  induction a as [|x a IH]; simpl; [reflexivity | now rewrite IH].
Qed.

Lemma append_empty (a : string) : a ++ "" = a.
Proof.
  induction a as [|x a IH]; simpl; [reflexivity | now rewrite IH].
Qed.

Lemma splitFrom_no_separator (c : ascii) (s cur : string) :
  containsByte s c = false ->
  strings.splitFrom (String c "") 0 cur s = [cur ++ s].
Proof.
  revert cur. induction s as [|b s IH]; intros cur H; simpl in *.
  - now rewrite append_empty.
  - apply orb_false_iff in H. destruct H as [Hb Hs].
    destruct (ascii_dec c b) as [E|E].
    + subst. now rewrite Ascii.eqb_refl in Hb.
    + rewrite IH by assumption. now rewrite append_assoc.
Qed.

Lemma Split_no_separator (s : string) :
  containsByte s "/" = false -> strings.Split s "/" = [s].
Proof.
  intro H. unfold strings.Split.
  now rewrite splitFrom_no_separator.
Qed.

Lemma defaultTitle_no_separator (gitURL version : string) :
  containsByte gitURL "/" = false -> defaultTitle gitURL version = None.
Proof.
  intro H. unfold defaultTitle. now rewrite Split_no_separator.
Qed.

(* ================================================================= *)
(** ** The change function *)

Section ChangeFunction.

Context {World : Type} (X : Externals World).

Lemma Function_after_changes (rule : Rule) (gitURL : string) (s s1 : State World) :
  applyLoop X (OutDir (EPO (opts s))) gitURL (Changes rule) s = Return s1 None ->
  Function X rule gitURL s = defaultTitles gitURL s1.
Proof.
  intro H. unfold Function. now rewrite H.
Qed.

Lemma titleAfter_defaultTitles (gitURL t : string) (s : State World) :
  PullRequestTitle (opts s) = "" ->
  defaultTitle gitURL (Version (opts s)) = Some t ->
  titleAfter (defaultTitles gitURL s) = Some t.
Proof.
  intros Ht Hd. unfold defaultTitles. rewrite Ht, Hd. simpl.
  destruct (CommitTitle (EPO (opts s)) =? ""); reflexivity.
Qed.

(** Once a title is set, whether configured or synthesized for an
    earlier repository, the change function leaves it alone whatever the
    git URL is. *)
Lemma titleAfter_defaultTitles_set (gitURL : string) (s : State World) :
  PullRequestTitle (opts s) <> "" ->
  titleAfter (defaultTitles gitURL s) = Some (PullRequestTitle (opts s)).
Proof.
  intro Ht. apply String.eqb_neq in Ht. unfold defaultTitles. rewrite Ht.
  destruct (CommitTitle (EPO (opts s)) =? ""); reflexivity.
Qed.

(** C1, as the code has it: with no title configured, for the git URL
    "https://github.com/acme/widgets.git" and version "1.2.3", once every
    change of the rule has been applied the change function sets the
    title to "chore(deps): upgrade acme/widgets.git to version 1.2.3":
    the last two segments of the URL are taken as they are and the ".git"
    suffix stays. *)
Theorem default_title_keeps_git_suffix (rule : Rule) (s s1 : State World) :
  applyLoop X (OutDir (EPO (opts s))) "https://github.com/acme/widgets.git"
    (Changes rule) s = Return s1 None ->
  PullRequestTitle (opts s1) = "" ->
  Version (opts s1) = "1.2.3" ->
  titleAfter (Function X rule "https://github.com/acme/widgets.git" s)
  = Some "chore(deps): upgrade acme/widgets.git to version 1.2.3".
Proof.
  intros Hc Ht Hv.
  rewrite (Function_after_changes _ _ _ _ Hc).
  apply titleAfter_defaultTitles; [assumption|].
  rewrite Hv. reflexivity.
Qed.

(** C10: for a git URL without any '/' (a non-empty one such as "repo")
    the split has one segment, the index [len-2] is out of range and the
    change function panics when it comes to synthesize the title: with
    no title configured it is not total over the non-empty URLs. *)
Theorem default_title_panics_without_slash
  (rule : Rule) (gitURL : string) (s s1 : State World) :
  containsByte gitURL "/" = false ->
  applyLoop X (OutDir (EPO (opts s))) gitURL (Changes rule) s = Return s1 None ->
  PullRequestTitle (opts s1) = "" ->
  strings.Split gitURL "/" = [gitURL]
  /\ index (strings.Split gitURL "/") (len (strings.Split gitURL "/") - 2) = None
  /\ Function X rule gitURL s = Panicked.
Proof.
  intros Hn Hc Ht.
  rewrite (Split_no_separator _ Hn).
  repeat split.
  rewrite (Function_after_changes _ _ _ _ Hc).
  unfold defaultTitles. rewrite Ht. simpl.
  now rewrite (defaultTitle_no_separator _ _ Hn).
Qed.

(** C7: a change whose four variants are all nil is logged as ignored;
    [ApplyChanges] returns nil and leaves the options and the world (the
    files) as they were. *)
Theorem ApplyChanges_unknown_is_ignored
  (dir gitURL : string) (change : Change) (s : State World) :
  ChangeCommand change = None ->
  ChangeGo change = None ->
  ChangeRegex change = None ->
  ChangeVersionStream change = None ->
  exists s',
    ApplyChanges X dir gitURL change s = Return s' None
    /\ world s' = world s
    /\ opts s' = opts s
    /\ logs s' = (logs s ++ [Infof_v "ignoring unknown change %#v" change])%list.
Proof.
  intros Hc Hg Hr Hv. unfold ApplyChanges. rewrite Hc, Hg, Hr, Hv.
  eexists. split; [reflexivity|]. repeat split.
Qed.

End ChangeFunction.

(* ================================================================= *)
(** ** The loops of Run *)

Section Loops.

Context {World : Type} (X : Externals World).


Lemma urlLoop_app (i : nat) (rule : Rule) (pre l : list string) (s : State World) :
  urlLoop X i rule (pre ++ l) s =
  thenRun (urlLoop X i rule pre s) (urlLoop X i rule l).
Proof.
  revert s. induction pre as [|u pre IH]; intro s.
  - simpl. destruct (urlLoop X i rule l s). reflexivity.
  - simpl. destruct (u =? ""); [apply IH|].
    destruct (Create X _ _ _ _ _ _) as [s' [[pr|] [e|]]|]; try reflexivity.
    + destruct (AddPullRequest X pr s') as [s'' []|]; [|reflexivity].
      rewrite IH. destruct (urlLoop X i rule pre s'') as [t [s3 [e|]|]]; simpl;
        try reflexivity.
      destruct (urlLoop X i rule l s3). reflexivity.
    + rewrite IH.
      destruct (urlLoop X i rule pre _) as [t [s3 [e|]|]]; simpl; try reflexivity.
      destruct (urlLoop X i rule l s3). reflexivity.
Qed.

Lemma rulesLoop_S (n i : nat) (s : State World) :
  rulesLoop X (S n) i s = thenRun (ruleStep X i s) (rulesLoop X n (S i)).
Proof.
  simpl. destruct (ruleStep X i s) as [t [s' [e|]|]]; reflexivity.
Qed.

End Loops.

(* ================================================================= *)
(** ** The trace of a run *)

Section Trace.

Context {World : Type} (X : Externals World).

Variable P : CreateCall -> Prop.
Hypothesis P_call :
  forall gitURL (s : State World) err, gitURL <> "" -> P (callFor gitURL s err).

Lemma thenRun_calls
  (r : list CreateCall * outcome (State World) (option error)) k :
  Forall P (fst r) -> (forall s, Forall P (fst (k s))) ->
  Forall P (fst (thenRun r k)).
Proof.
  intros Hr Hk. destruct r as [t [s [e|]|]]; simpl in *; try assumption.
  specialize (Hk s). destruct (k s) as [t' r']. simpl in *.
  apply Forall_app. now split.
Qed.

Lemma urlLoop_calls (i : nat) (rule : Rule) (urls : list string) (s : State World) :
  Forall P (fst (urlLoop X i rule urls s)).
Proof.
  revert s. induction urls as [|u urls IH]; intro s; simpl.
  - constructor.
  - destruct (u =? "") eqn:Eu; [apply IH|].
    apply String.eqb_neq in Eu.
    destruct (Create X _ _ _ _ _ _) as [s' [[pr|] [e|]]|]; simpl;
      try (constructor; [now apply P_call | constructor]).
    + destruct (AddPullRequest X pr s') as [s'' []|]; simpl.
      * specialize (IH s''). destruct (urlLoop X i rule urls s''). simpl in *.
        constructor; [now apply P_call | assumption].
      * constructor; [now apply P_call | constructor].
    + match goal with |- context [urlLoop X i rule urls ?s0] =>
        specialize (IH s0); destruct (urlLoop X i rule urls s0) end.
      simpl in *. constructor; [now apply P_call | assumption].
Qed.

Lemma ruleStep_calls (i : nat) (s : State World) :
  Forall P (fst (ruleStep X i s)).
Proof.
  unfold ruleStep. destruct (nth_error _ i) as [rule|]; [|constructor].
  destruct (FindURLs X rule s) as [s' [rule' [e|]]|]; simpl; try constructor.
  apply urlLoop_calls.
Qed.

Lemma rulesLoop_calls (n i : nat) (s : State World) :
  Forall P (fst (rulesLoop X n i s)).
Proof.
  revert i s. induction n as [|n IH]; intros i s.
  - constructor.
  - rewrite rulesLoop_S. apply thenRun_calls; [apply ruleStep_calls|].
    intro s'. apply IH.
Qed.

Lemma Run_calls (s : State World) : Forall P (fst (Run X s)).
Proof.
  unfold Run. destruct (Validate X s) as [s' [e|]]; [constructor|].
  apply rulesLoop_calls.
Qed.

End Trace.

Section Ended.

Context {World : Type} (X : Externals World).

Lemma ended_cons (c : CreateCall) t (r : outcome (State World) (option error)) :
  callErr c = None -> ended t r -> ended (c :: t) r.
Proof.
  intros Hc H. destruct H as [t r Ht | t c' err s Ht Hc'].
  - apply ended_clean. now constructor.
  - change (c :: t ++ [c'])%list with ((c :: t) ++ [c'])%list.
    apply ended_failed; [now constructor | assumption].
Qed.

Lemma ended_app t t' (s : State World) (r : outcome (State World) (option error)) :
  ended t (Return s None) -> ended t' r -> ended (t ++ t') r.
Proof.
  intros H H'. inversion H as [t0 r0 Ht | ]; subst.
  clear H. induction Ht as [|c t Hc Ht IH]; simpl; [assumption|].
  now apply ended_cons.
Qed.

Lemma thenRun_ended
  (r : list CreateCall * outcome (State World) (option error)) k :
  ended (fst r) (snd r) -> (forall s, ended (fst (k s)) (snd (k s))) ->
  ended (fst (thenRun r k)) (snd (thenRun r k)).
Proof.
  intros Hr Hk. destruct r as [t [s [e|]|]]; simpl in *; try assumption.
  specialize (Hk s). destruct (k s) as [t' r']. simpl in *.
  eapply ended_app; eassumption.
Qed.

Lemma urlLoop_ended (i : nat) (rule : Rule) (urls : list string) (s : State World) :
  ended (fst (urlLoop X i rule urls s)) (snd (urlLoop X i rule urls s)).
Proof.
  revert s. induction urls as [|u urls IH]; intro s; simpl.
  - apply ended_clean. constructor.
  - destruct (u =? ""); [apply IH|].
    destruct (Create X _ _ _ _ _ _) as [s' [[pr|] [e|]]|]; simpl;
      try (apply ended_clean; constructor; [reflexivity | constructor]);
      try (apply (ended_failed [] (callFor u s (Some e)) e s');
           [constructor | reflexivity]).
    + destruct (AddPullRequest X pr s') as [s'' []|]; simpl.
      * specialize (IH s''). destruct (urlLoop X i rule urls s''). simpl in *.
        apply ended_cons; [reflexivity | assumption].
      * apply ended_clean. constructor; [reflexivity | constructor].
    + match goal with |- context [urlLoop X i rule urls ?s0] =>
        specialize (IH s0); destruct (urlLoop X i rule urls s0) end.
      simpl in *. apply ended_cons; [reflexivity | assumption].
Qed.

Lemma ruleStep_ended (i : nat) (s : State World) :
  ended (fst (ruleStep X i s)) (snd (ruleStep X i s)).
Proof.
  unfold ruleStep. destruct (nth_error _ i) as [rule|];
    [|apply ended_clean; constructor].
  destruct (FindURLs X rule s) as [s' [rule' [e|]]|]; simpl;
    try (apply ended_clean; constructor).
  apply urlLoop_ended.
Qed.

Lemma rulesLoop_ended (n i : nat) (s : State World) :
  ended (fst (rulesLoop X n i s)) (snd (rulesLoop X n i s)).
Proof.
  revert i s. induction n as [|n IH]; intros i s.
  - apply ended_clean. constructor.
  - rewrite rulesLoop_S. apply thenRun_ended; [apply ruleStep_ended|].
    intro s'. apply IH.
Qed.

Lemma Run_ended (s : State World) : ended (fst (Run X s)) (snd (Run X s)).
Proof.
  unfold Run. destruct (Validate X s) as [s' [e|]];
    [apply ended_clean; constructor|].
  apply rulesLoop_ended.
Qed.


End Ended.

(* ================================================================= *)
(** ** Validate *)

Section Validation.

Context {World : Type} (X : Externals World).

Lemma andThen_keepsVersion (f g : phase (World := World)) :
  keepsVersion f -> keepsVersion g -> keepsVersion (andThen f g).
Proof.
  intros Hf Hg s. unfold andThen.
  destruct (Hf s) as [Hv He]. destruct (f s) as [s' [e|]]; simpl in *.
  - now split.
  - destruct (Hg s') as [Hv' He']. rewrite Hv'. now split.
Qed.

Lemma andThen_assoc (f g h : phase (World := World)) (s : State World) :
  andThen f (andThen g h) s = andThen (andThen f g) h s.
Proof.
  unfold andThen. destruct (f s) as [s1 [e|]]; [reflexivity|].
  destruct (g s1) as [s2 [e|]]; reflexivity.
Qed.

Lemma loadConfigFile_keepsVersion : keepsVersion (loadConfigFile X).
Proof. intro s. unfold loadConfigFile. split_phase. Qed.

Lemma defaultHelmer_keepsVersion : keepsVersion (defaultHelmer (World := World)).
Proof. intro s. unfold defaultHelmer. split_phase. Qed.

Lemma gitIdentity_keepsVersion : keepsVersion (gitIdentity X).
Proof. intro s. unfold gitIdentity. split_phase. Qed.

Lemma discoverServer_keepsVersion : keepsVersion (discoverServer X).
Proof. intro s. unfold discoverServer. split_phase. Qed.

Lemma findToken_keepsVersion : keepsVersion (findToken X).
Proof. intro s. unfold findToken. split_phase. Qed.

Lemma gitToken_keepsVersion : keepsVersion (gitToken X).
Proof.
  intro s. unfold gitToken.
  destruct (GitToken (Factory (EPO (opts s))) =? "").
  - apply andThen_keepsVersion;
      [apply discoverServer_keepsVersion | apply findToken_keepsVersion].
  - simpl. split; [reflexivity | discriminate].
Qed.

Lemma commitUsername_keepsVersion : keepsVersion (commitUsername X).
Proof. intro s. unfold commitUsername. split_phase. Qed.

Lemma gitCredentials_keepsVersion : keepsVersion (gitCredentials X).
Proof. intro s. unfold gitCredentials. split_phase. Qed.

Lemma afterVersion_keepsVersion : keepsVersion (afterVersion X).
Proof.
  unfold afterVersion.
  repeat apply andThen_keepsVersion;
    auto using loadConfigFile_keepsVersion, defaultHelmer_keepsVersion,
      gitIdentity_keepsVersion, gitToken_keepsVersion,
      commitUsername_keepsVersion, gitCredentials_keepsVersion.
Qed.

Lemma initMaps_spec (s : State World) :
  exists o1,
    initMaps s = (withOpts o1 s, None)
    /\ Version o1 = Version (opts s)
    /\ VersionFile o1 = VersionFile (opts s)
    /\ Dir o1 = Dir (opts s)
    /\ NoVersion o1 = NoVersion (opts s).
Proof.
  unfold initMaps. eexists. split; [reflexivity|].
  destruct (TemplateData (opts s)); simpl;
    destruct (PullRequestSHAs (opts s)); simpl; repeat split.
Qed.

Lemma resolveVersion_spec (s : State World) (exists_ : bool) (data : string) :
  (Version (opts s) = "" ->
   files_FileExists X (versionFilePath X (opts s)) (world s) = (exists_, None)) ->
  (Version (opts s) = "" -> exists_ = true ->
   ioutil_ReadFile X (versionFilePath X (opts s)) (world s) = (data, None)) ->
  let v := versionByPrecedence (Version (opts s))
             (if exists_ then Some (strings_TrimSpace X data) else None)
             (os_Getenv X "VERSION" (world s)) in
  Version (opts (fst (resolveVersion X s))) = v
  /\ world (fst (resolveVersion X s)) = world s
  /\ NoVersion (opts (fst (resolveVersion X s))) = NoVersion (opts s)
  /\ snd (resolveVersion X s) =
     if (v =? "") && negb (NoVersion (opts s))
     then Some (MissingOption "version") else None.
Proof.
  intros Hex Hrd v. subst v.
  unfold resolveVersion, andThen, versionFromFile, versionFromEnv,
    versionByPrecedence, versionFilePath in *.
  destruct s as [o w l].
  destruct o as [epo dir cf ver vf prt prb gu ge am nv gcr lbl td shas hl gql cfg].
  simpl in *.
  destruct (ver =? "") eqn:Ev; simpl.
  - apply String.eqb_eq in Ev. subst ver.
    specialize (Hex eq_refl). specialize (Hrd eq_refl).
    destruct (vf =? "") eqn:Ef; simpl in *; rewrite Hex.
    all: destruct exists_; [rewrite (Hrd eq_refl)|]; simpl.
    all: try (destruct (strings_TrimSpace X data =? "") eqn:Et; simpl).
    all: destruct (os_Getenv X "VERSION" w =? "") eqn:Eg; simpl.
    all: destruct nv; simpl.
    all: try rewrite Et; simpl.
    all: try (apply String.eqb_eq in Et; rewrite Et).
    all: repeat split; try reflexivity.
  - rewrite ?Ev; simpl; rewrite ?Ev; simpl. repeat split.
Qed.

(** C3: the version [Validate] settles on follows the precedence explicit
    value, then trimmed contents of the version file ([VersionFile], by
    default [<Dir>/VERSION]) when the file exists and is not blank, then
    the VERSION environment variable; when all of them are empty and
    [NoVersion] is false, [Validate] returns the missing-option error for
    "version" with the world untouched, and [Run] returns it wrapped
    without calling [Create]. The two premises say that the file system
    reads, where [Validate] makes them, do not fail. *)
Theorem Validate_resolves_version
  (s : State World) (exists_ : bool) (data : string) :
  (Version (opts s) = "" ->
   files_FileExists X (versionFilePath X (opts s)) (world s) = (exists_, None)) ->
  (Version (opts s) = "" -> exists_ = true ->
   ioutil_ReadFile X (versionFilePath X (opts s)) (world s) = (data, None)) ->
  let v := versionByPrecedence (Version (opts s))
             (if exists_ then Some (strings_TrimSpace X data) else None)
             (os_Getenv X "VERSION" (world s)) in
  Version (opts (fst (Validate X s))) = v
  /\ if (v =? "") && negb (NoVersion (opts s))
     then snd (Validate X s) = Some (MissingOption "version")
          /\ world (fst (Validate X s)) = world s
          /\ Run X s = ([], Return (fst (Validate X s))
                             (Some (Wrapf (MissingOption "version")
                                      "failed to validate" [])))
     else snd (Validate X s) <> Some (MissingOption "version").
Proof.
  intros Hex Hrd v.
  destruct (initMaps_spec s) as (o1 & Hi & Hv1 & Hf1 & Hd1 & Hn1).
  assert (Hp : versionFilePath X o1 = versionFilePath X (opts s))
    by (unfold versionFilePath; now rewrite Hf1, Hd1).
  destruct (resolveVersion_spec (withOpts o1 s) exists_ data) as (Rv & Rw & Rn & Re).
  { simpl. rewrite Hp, Hv1. exact Hex. }
  { simpl. rewrite Hp, Hv1. exact Hrd. }
  simpl in Rv, Rw, Rn, Re. rewrite Hv1 in Rv, Re. rewrite Hn1 in Re, Rn.
  fold v in Rv, Re.
  assert (HV : Validate X s =
               andThen (resolveVersion X) (afterVersion X) (withOpts o1 s)).
  { change (Validate X s) with
      (andThen initMaps
         (andThen (versionFromFile X)
            (andThen (versionFromEnv X) (afterVersion X))) s).
    unfold andThen at 1. rewrite Hi. apply andThen_assoc. }
  unfold Run. rewrite HV. unfold andThen.
  destruct (resolveVersion X (withOpts o1 s)) as [s2 r2]. simpl in *.
  destruct ((v =? "") && negb (NoVersion (opts s))); subst r2.
  - simpl. repeat split; assumption.
  - destruct (afterVersion_keepsVersion s2) as [Kv Ke].
    rewrite Kv. split; assumption.
Qed.

End Validation.

(* ================================================================= *)
(** ** What Create is handed in a run *)

Section Guarded.

Context {World : Type} (X : Externals World).

Variable P : string -> string -> PullRequest -> bool -> State World -> bool.

Lemma Validate_guarded (s : State World) :
  Validate (guarded P X) s = Validate X s.
Proof. reflexivity. Qed.

Lemma discoverMessage_guarded (s : State World) :
  discoverMessage (guarded P X) s = discoverMessage X s.
Proof. reflexivity. Qed.

Lemma FindURLs_guarded (rule : Rule) (s : State World) :
  FindURLs (guarded P X) rule s = FindURLs X rule s.
Proof. reflexivity. Qed.

Lemma Function_guarded (rule : Rule) (gitURL : string) :
  Function (guarded P X) rule gitURL = Function X rule gitURL.
Proof. reflexivity. Qed.

(** One step of the loop: when what the step hands over passes the
    check, the check changes nothing. *)
Lemma urlLoop_guarded_step
  (i : nat) (rule : Rule) (gitURL : string) (rest : list string)
  (s : State World) :
  gitURL <> "" ->
  P gitURL "" (newDetails (clearBranchName (opts s)))
    (AutoMerge (opts (prepare s))) (prepare s) = true ->
  (forall s', urlLoop (guarded P X) i rule rest s' = urlLoop X i rule rest s') ->
  urlLoop (guarded P X) i rule (gitURL :: rest) s
  = urlLoop X i rule (gitURL :: rest) s.
Proof.
  intros Hu HP Hrest. apply String.eqb_neq in Hu.
  cbn [urlLoop]. rewrite Hu.
  change (Create (guarded P X) (Function (guarded P X) rule gitURL) gitURL
            (callDir (callFor gitURL s None)) (callDetails (callFor gitURL s None))
            (callAutoMerge (callFor gitURL s None)) (prepare s))
    with (if P gitURL "" (newDetails (clearBranchName (opts s)))
               (AutoMerge (opts (prepare s))) (prepare s)
          then Create X (Function X rule gitURL) gitURL
                 (callDir (callFor gitURL s None))
                 (callDetails (callFor gitURL s None))
                 (callAutoMerge (callFor gitURL s None)) (prepare s)
          else Panicked).
  rewrite HP.
  destruct (Create X _ _ _ _ _ _) as [s1 [[pr|] [e|]]|]; try reflexivity.
  - change (AddPullRequest (guarded P X) pr s1) with (AddPullRequest X pr s1).
    destruct (AddPullRequest X pr s1) as [s2 []|]; [|reflexivity].
    now rewrite Hrest.
  - now rewrite Hrest.
Qed.

Hypothesis P_holds :
  forall gitURL (s : State World),
    gitURL <> "" ->
    P gitURL "" (newDetails (clearBranchName (opts s)))
      (AutoMerge (opts (prepare s))) (prepare s) = true.

Lemma urlLoop_guarded (i : nat) (rule : Rule) (urls : list string) (s : State World) :
  urlLoop (guarded P X) i rule urls s = urlLoop X i rule urls s.
Proof.
  revert s. induction urls as [|u urls IH]; intro s; [reflexivity|].
  destruct (String.eqb_spec u "") as [->|Hu].
  - cbn [urlLoop]. rewrite String.eqb_refl. apply IH.
  - apply urlLoop_guarded_step; auto.
Qed.

Lemma ruleStep_guarded (i : nat) (s : State World) :
  ruleStep (guarded P X) i s = ruleStep X i s.
Proof.
  unfold ruleStep. destruct (nth_error _ i) as [rule|]; [|reflexivity].
  rewrite FindURLs_guarded.
  destruct (FindURLs X rule s) as [s1 [rule1 [e|]]|]; try reflexivity.
  apply urlLoop_guarded.
Qed.

Lemma rulesLoop_guarded (n i : nat) (s : State World) :
  rulesLoop (guarded P X) n i s = rulesLoop X n i s.
Proof.
  revert i s. induction n as [|n IH]; intros i s; [reflexivity|].
  rewrite !rulesLoop_S, ruleStep_guarded.
  destruct (ruleStep X i s) as [t [s1 [e|]|]]; simpl; try reflexivity.
  now rewrite IH.
Qed.

Lemma Run_guarded (s : State World) : Run (guarded P X) s = Run X s.
Proof.
  unfold Run. rewrite Validate_guarded.
  destruct (Validate X s) as [s1 [e|]]; [reflexivity|].
  rewrite discoverMessage_guarded. apply rulesLoop_guarded.
Qed.

End Guarded.

(* ================================================================= *)
(** ** The rule engine *)

Section RuleEngine.

Context {World : Type} (X : Externals World).

Lemma thenRun_skip (s : State World) k :
  thenRun ([], Return s None) k = k s.
Proof.
  unfold thenRun. destruct (k s). reflexivity.
Qed.


(** C5: a rule whose URLs are empty once [FindURLs] has returned makes no
    call of [Create] and returns no error: a warning is logged, the world
    is as [FindURLs] left it, and the loop goes on with the next rule. *)
Theorem rule_without_URLs_is_skipped
  (i : nat) (s s1 : State World) (rule rule1 : Rule) :
  nth_error (rulesOf (opts s)) i = Some rule ->
  FindURLs X rule s = Return s1 (rule1, None) ->
  URLs rule1 = [] ->
  exists s2,
    ruleStep X i s = ([], Return s2 None)
    /\ world s2 = world s1
    /\ logs s2 = (logs s1 ++ [Warnf "no URLs to process for rule %d" [AInt i]])%list
    /\ forall n, rulesLoop X (S n) i s = rulesLoop X n (S i) s2.
Proof.
  intros Hr Hf Hu.
  assert (Hstep : exists s2,
             ruleStep X i s = ([], Return s2 None)
             /\ world s2 = world s1
             /\ logs s2
                = (logs s1 ++ [Warnf "no URLs to process for rule %d" [AInt i]])%list).
  { unfold ruleStep. rewrite Hr, Hf, Hu. simpl.
    eexists. split; [reflexivity|]. split; reflexivity. }
  destruct Hstep as (s2 & Hs & Hw & Hl).
  exists s2. repeat (split; [assumption|]).
  intro n. rewrite rulesLoop_S, Hs. apply thenRun_skip.
Qed.

(** C6: an empty entry of the URL list, wherever it stands, costs one
    warning: no call of [Create] is made for it (no call of a run has an
    empty URL), no error is returned and the remaining URLs are
    processed from the state so reached. *)
Theorem empty_URL_is_skipped
  (i : nat) (rule : Rule) (pre rest : list string) (s : State World) :
  urlLoop X i rule (pre ++ "" :: rest) s
  = thenRun (urlLoop X i rule pre s)
      (fun s' =>
         urlLoop X i rule rest
           (logf (Warnf "missing out repository %d as it has no git URL" [AInt i])
              s'))
  /\ Forall (fun c => callURL c <> "") (fst (Run X s)).
Proof.
  split.
  - rewrite urlLoop_app. unfold thenRun.
    destruct (urlLoop X i rule pre s) as [t [s' [e|]|]]; reflexivity.
  - apply Run_calls. intros gitURL s0 err Hne. exact Hne.
Qed.

Lemma AutoMerge_reuseExisting (o : Options) :
  AutoMerge (reuseExisting o) = AutoMerge o.
Proof.
  unfold reuseExisting. destruct (AutoMerge o) eqn:E; simpl; exact E.
Qed.

(** C8: in every run, for every rule and every non-empty URL, [Create]
    receives options whose branch name is empty: a [Create] that panics
    on any other branch name runs exactly like the original. And the
    branch name an earlier iteration left plays no part: the processing
    of a non-empty URL, and of all that follow, is the same whatever
    branch name the options hold when it starts. *)
Theorem BranchName_is_cleared_for_every_URL (s : State World) :
  Run (guarded branchCleared X) s = Run X s
  /\ (forall i rule gitURL rest b,
        gitURL <> "" ->
        urlLoop X i rule (gitURL :: rest) (onBranch b s)
        = urlLoop X i rule (gitURL :: rest) (onBranch "" s)).
Proof.
  split.
  - apply Run_guarded. intros gitURL s0 _. unfold branchCleared. simpl.
    unfold reuseExisting. destruct (AutoMerge (clearBranchName (opts s0)));
      reflexivity.
  - intros i rule gitURL rest b Hu. apply String.eqb_neq in Hu.
    cbn [urlLoop]. rewrite Hu. reflexivity.
Qed.

Lemma StringArrayIndex_range (l : list string) (v : string) :
  (StringArrayIndex l v = -1 \/ 0 <= StringArrayIndex l v)%Z.
Proof.
  induction l as [|x l IH]; simpl; [now left|].
  destruct (x =? v); [right; lia|].
  destruct (StringArrayIndex l v <? 0)%Z eqn:E; [now left|].
  right. apply Z.ltb_ge in E. lia.
Qed.

Lemma StringArrayIndex_count (l : list string) (v : string) :
  (StringArrayIndex l v <? 0)%Z = (count_occ string_dec l v =? 0)%nat.
Proof.
  induction l as [|x l IH]; simpl; [reflexivity|].
  destruct (string_dec x v) as [E|E].
  - subst. now rewrite String.eqb_refl.
  - apply String.eqb_neq in E. rewrite E.
    destruct (StringArrayIndex_range l v) as [H|H].
    + rewrite H in *. simpl in *. exact IH.
    + rewrite <- IH.
      assert (Hn : (StringArrayIndex l v <? 0)%Z = false) by now apply Z.ltb_ge.
      rewrite Hn. apply Z.ltb_ge. lia.
Qed.

Lemma count_reuseExisting (o : Options) :
  count_occ string_dec (filterLabels (reuseExisting o)) LabelUpdatebot
  = if AutoMerge o
    then Nat.max 1 (count_occ string_dec (filterLabels o) LabelUpdatebot)
    else count_occ string_dec (filterLabels o) LabelUpdatebot.
Proof.
  unfold reuseExisting, filterLabels.
  destruct (AutoMerge o); [|reflexivity]. simpl.
  set (f := match Filter (EPO o) with Some f => f | None => {| FilterLabels := [] |} end).
  assert (Hf : match Filter (EPO o) with Some f0 => FilterLabels f0 | None => [] end
               = FilterLabels f) by (subst f; destruct (Filter (EPO o)); reflexivity).
  rewrite Hf, StringArrayIndex_count.
  destruct (count_occ string_dec (FilterLabels f) LabelUpdatebot) as [|n] eqn:E; simpl.
  - rewrite count_occ_app, E. simpl.
    destruct (string_dec LabelUpdatebot LabelUpdatebot); [reflexivity | congruence].
  - rewrite E. reflexivity.
Qed.

Lemma reuseExisting_idempotent (o : Options) :
  reuseExisting (reuseExisting o) = reuseExisting o.
Proof.
  pose proof (count_reuseExisting o) as Hc.
  unfold reuseExisting at 1. rewrite AutoMerge_reuseExisting.
  destruct (AutoMerge o) eqn:Ea; [|reflexivity].
  unfold filterLabels in Hc at 1.
  unfold reuseExisting in *. rewrite Ea in *. simpl in *.
  rewrite StringArrayIndex_count, Hc.
  destruct (count_occ string_dec (filterLabels o) LabelUpdatebot); reflexivity.
Qed.

Lemma reuseExisting_iter (o : Options) (n : nat) :
  Nat.iter (S n) reuseExisting o = reuseExisting o.
Proof.
  induction n as [|n IH]; [reflexivity|].
  change (Nat.iter (S (S n)) reuseExisting o)
    with (reuseExisting (Nat.iter (S n) reuseExisting o)).
  rewrite IH. apply reuseExisting_idempotent.
Qed.

Lemma filterLabels_reuseExisting (o : Options) :
  filterLabels (reuseExisting o) = labelsFor o.
Proof.
  unfold labelsFor, reuseExisting, filterLabels.
  destruct (AutoMerge o); simpl; [|now rewrite app_nil_r].
  destruct (Filter (EPO o)) as [f|]; simpl.
  - rewrite StringArrayIndex_count.
    destruct (count_occ string_dec (FilterLabels f) LabelUpdatebot =? 0)%nat;
      simpl; [reflexivity | now rewrite app_nil_r].
  - reflexivity.
Qed.

Lemma sameStrings_refl (l : list string) : sameStrings l l = true.
Proof.
  unfold sameStrings. destruct (list_eq_dec string_dec l l); congruence.
Qed.

(** C9: with AutoMerge on, [Create] receives in every run a filter that
    holds the "updatebot" label: a [Create] that panics on a filter
    without it runs exactly like the original. The step for one URL
    hands [Create] the labels the filter had, followed by the label when
    AutoMerge is on and it was absent, and by nothing otherwise: the
    label is appended at most once. The number of its occurrences
    becomes the larger of one and what it was, and repeating the step
    any number of times is the same as doing it once. *)
Theorem updatebot_label_is_ensured_once (s : State World) :
  Run (guarded labelEnsured X) s = Run X s
  /\ (forall i rule gitURL,
        gitURL <> "" ->
        urlLoop (guarded (labelsAre (labelsFor (opts s))) X) i rule [gitURL] s
        = urlLoop X i rule [gitURL] s)
  /\ (forall o,
        count_occ string_dec (filterLabels (reuseExisting o)) LabelUpdatebot
        = if AutoMerge o
          then Nat.max 1 (count_occ string_dec (filterLabels o) LabelUpdatebot)
          else count_occ string_dec (filterLabels o) LabelUpdatebot)
  /\ (forall o n, Nat.iter (S n) reuseExisting o = reuseExisting o).
Proof.
  split; [|split; [|split; [exact count_reuseExisting | exact reuseExisting_iter]]].
  - apply Run_guarded. intros gitURL s0 _. unfold labelEnsured. simpl.
    rewrite AutoMerge_reuseExisting, count_reuseExisting.
    change (AutoMerge (clearBranchName (opts s0))) with (AutoMerge (opts s0)).
    destruct (AutoMerge (opts s0)); [|reflexivity]. simpl.
    destruct (count_occ string_dec (filterLabels (clearBranchName (opts s0)))
                LabelUpdatebot); reflexivity.
  - intros i rule gitURL Hu. apply urlLoop_guarded_step; [assumption | | reflexivity].
    unfold labelsAre. simpl. rewrite filterLabels_reuseExisting.
    apply sameStrings_refl.
Qed.

End RuleEngine.

(* ================================================================= *)
(** ** Runs with the fake collaborators *)

(** C1, as the specification has it, fails: for the git URL
    "https://github.com/acme/widgets.git" the title is not the one with
    "acme/widgets". *)
Lemma default_title_is_not_stripped :
  titleAfter
    (Function Fake.X (Fake.rule [Fake.widgets] []) Fake.widgets
       (Fake.start (Fake.options "1.2.3" "" []) Fake.emptyWorld))
  <> Some "chore(deps): upgrade acme/widgets to version 1.2.3".
Proof.
  vm_compute. discriminate.
Qed.

Lemma default_title_keeps_git_suffix_witness :
  titleAfter
    (Function Fake.X (Fake.rule [Fake.widgets] [Fake.command "make"]) Fake.widgets
       (Fake.start (Fake.options "1.2.3" "" []) Fake.emptyWorld))
  = Some "chore(deps): upgrade acme/widgets.git to version 1.2.3".
Proof.
  eapply (default_title_keeps_git_suffix Fake.X).
  - vm_compute. reflexivity.
  - reflexivity.
  - reflexivity.
Defined.

(** C2 fails on the code: in a run over two repositories with no title
    configured, the title synthesized for the first repository is stored
    in the options, so the details of the second call of [Create] carry
    the first repository's title and the change function leaves it in
    place, although the second URL on its own would give another title. *)
Theorem title_of_first_repository_carries_over :
  let s := Fake.start (Fake.options "1.2.3" "" [Fake.twoRepositories])
             Fake.emptyWorld in
  map (fun c => (callURL c, Title (callDetails c))) (fst (Run Fake.X s))
  = [(Fake.gadgets, "");
     (Fake.thing, "chore(deps): upgrade acme/gadgets to version 1.2.3")]
  /\ titleAfter (snd (Run Fake.X s))
     = Some "chore(deps): upgrade acme/gadgets to version 1.2.3"
  /\ defaultTitle Fake.thing "1.2.3"
     = Some "chore(deps): upgrade other/thing to version 1.2.3".
Proof.
  vm_compute. repeat split.
Qed.

Lemma Validate_resolves_version_witness :
  Version (opts (fst (Validate Fake.X
                        (Fake.start (Fake.options "" "" []) Fake.versioned))))
  = "1.0.0"
  /\ Version (opts (fst (Validate Fake.X
                           (Fake.start (Fake.options "9.9.9" "" []) Fake.versioned))))
     = "9.9.9"
  /\ snd (Validate Fake.X (Fake.start (Fake.options "" "" []) Fake.emptyWorld))
     = Some (MissingOption "version").
Proof.
  split; [|split].
  - exact (proj1 (Validate_resolves_version Fake.X
                    (Fake.start (Fake.options "" "" []) Fake.versioned)
                    true (" 1.0.0" ++ String (ascii_of_nat 10) "")
                    (fun _ => eq_refl) (fun _ _ => eq_refl))).
  - exact (proj1 (Validate_resolves_version Fake.X
                    (Fake.start (Fake.options "9.9.9" "" []) Fake.versioned)
                    true (" 1.0.0" ++ String (ascii_of_nat 10) "")
                    (fun _ => eq_refl) (fun _ _ => eq_refl))).
  - exact (proj1 (proj2 (Validate_resolves_version Fake.X
                    (Fake.start (Fake.options "" "" []) Fake.emptyWorld)
                    false "" (fun _ => eq_refl)
                    (fun _ H => ltac:(discriminate H))))).
Defined.


Lemma rule_without_URLs_is_skipped_witness :
  let s := Fake.start (Fake.options "1.2.3" "" [Fake.idle; Fake.twoRepositories])
             Fake.emptyWorld in
  exists s2,
    ruleStep Fake.X 0 s = ([], Return s2 None)
    /\ world s2 = world s
    /\ logs s2 = [Warnf "no URLs to process for rule %d" [AInt 0]]
    /\ forall n, rulesLoop Fake.X (S n) 0 s = rulesLoop Fake.X n 1 s2.
Proof.
  intro s.
  exact (rule_without_URLs_is_skipped Fake.X 0 s s Fake.idle Fake.idle
           eq_refl eq_refl eq_refl).
Defined.

Lemma ApplyChanges_unknown_is_ignored_witness :
  let s := Fake.start (Fake.options "1.2.3" "" []) Fake.emptyWorld in
  exists s',
    ApplyChanges Fake.X "/tmp/out" Fake.thing Fake.unknown s = Return s' None
    /\ world s' = world s
    /\ opts s' = opts s
    /\ logs s' = [Infof_v "ignoring unknown change %#v" Fake.unknown].
Proof.
  intro s.
  exact (ApplyChanges_unknown_is_ignored Fake.X "/tmp/out" Fake.thing Fake.unknown s
           eq_refl eq_refl eq_refl eq_refl).
Defined.

Lemma default_title_panics_without_slash_witness :
  "repo" <> ""
  /\ strings.Split "repo" "/" = ["repo"]
  /\ Function Fake.X (Fake.rule ["repo"] [Fake.command "make"]) "repo"
       (Fake.start (Fake.options "1.2.3" "" []) Fake.emptyWorld)
     = Panicked.
Proof.
  split; [discriminate|].
  edestruct (default_title_panics_without_slash Fake.X
               (Fake.rule ["repo"] [Fake.command "make"]) "repo"
               (Fake.start (Fake.options "1.2.3" "" []) Fake.emptyWorld))
    as (Hs & _ & Hp).
  - reflexivity.
  - vm_compute. reflexivity.
  - reflexivity.
  - split; [exact Hs | exact Hp].
Defined.

(* ================================================================= *)
(** ** More on strings.Split and the default title *)

Lemma prefix_single (c x : ascii) (s : string) :
  prefix (String c "") (String x s) = Ascii.eqb x c.
Proof.
  simpl. destruct (ascii_dec c x) as [E|E].
  - subst. rewrite Ascii.eqb_refl. destruct s; reflexivity.
  - symmetry. apply Ascii.eqb_neq. congruence.
Qed.

Lemma splitFrom_step (c x : ascii) (cur s : string) :
  strings.splitFrom (String c "") 0 cur (String x s)
  = if Ascii.eqb x c
    then cur :: strings.splitFrom (String c "") 0 "" s
    else strings.splitFrom (String c "") 0 (cur ++ String x "") s.
Proof.
  cbn [strings.splitFrom]. rewrite prefix_single. reflexivity.
Qed.

Lemma splitFrom_nonempty (c : ascii) (cur s : string) :
  strings.splitFrom (String c "") 0 cur s <> [].
Proof.
  revert cur. induction s as [|x s IH]; intro cur; [discriminate|].
  rewrite splitFrom_step. destruct (Ascii.eqb x c); [discriminate | apply IH].
Qed.

Lemma splitFrom_app (c : ascii) (cur a b : string) :
  strings.splitFrom (String c "") 0 cur (a ++ String c b)
  = (strings.splitFrom (String c "") 0 cur a
     ++ strings.splitFrom (String c "") 0 "" b)%list.
Proof.
  revert cur. induction a as [|x a IH]; intro cur.
  - cbn [append]. rewrite splitFrom_step, Ascii.eqb_refl. reflexivity.
  - cbn [append]. rewrite !splitFrom_step.
    destruct (Ascii.eqb x c); [now rewrite IH | apply IH].
Qed.

Lemma splitFrom_join (c : ascii) (cur s : string) :
  joinWith (String c "") (strings.splitFrom (String c "") 0 cur s) = cur ++ s.
Proof.
  revert cur. induction s as [|x s IH]; intro cur.
  - simpl. now rewrite append_empty.
  - rewrite splitFrom_step. destruct (Ascii.eqb x c) eqn:E.
    + apply Ascii.eqb_eq in E. subst x.
      specialize (IH "").
      destruct (strings.splitFrom (String c "") 0 "" s) as [|y l] eqn:El.
      * now apply splitFrom_nonempty in El.
      * change (joinWith (String c "") (cur :: y :: l))
          with (cur ++ String c "" ++ joinWith (String c "") (y :: l)).
        rewrite IH. reflexivity.
    + rewrite IH, append_assoc. reflexivity.
Qed.

Lemma splitFrom_segments (c : ascii) (cur s : string) :
  containsByte cur c = false ->
  Forall (fun seg => containsByte seg c = false)
    (strings.splitFrom (String c "") 0 cur s).
Proof.
  revert cur. induction s as [|x s IH]; intros cur Hc.
  - simpl. constructor; [assumption | constructor].
  - rewrite splitFrom_step. destruct (Ascii.eqb x c) eqn:E.
    + constructor; [assumption | now apply IH].
    + apply IH. clear IH. induction cur as [|y cur IHc]; simpl in *.
      * now rewrite E.
      * apply orb_false_iff in Hc. destruct Hc as [H1 H2].
        rewrite H1. simpl. now apply IHc.
Qed.

Lemma splitFrom_length (c : ascii) (cur s : string) :
  containsByte s c = true ->
  2 <= List.length (strings.splitFrom (String c "") 0 cur s).
Proof.
  revert cur. induction s as [|x s IH]; intros cur H; [discriminate|].
  rewrite splitFrom_step. simpl in H. destruct (Ascii.eqb x c); simpl in *.
  - pose proof (splitFrom_nonempty c "" s) as Hn.
    destruct (strings.splitFrom (String c "") 0 "" s); [congruence | simpl; lia].
  - now apply IH.
Qed.

(** X3: splitting on "/" loses nothing: no segment holds a '/', there is
    at least one segment, and joining the segments with "/" gives the
    string back. *)
Theorem Split_round_trip (s : string) :
  joinWith "/" (strings.Split s "/") = s
  /\ Forall (fun seg => containsByte seg "/" = false) (strings.Split s "/")
  /\ strings.Split s "/" <> [].
Proof.
  unfold strings.Split. split; [|split].
  - apply (splitFrom_join "/" "" s).
  - now apply splitFrom_segments.
  - apply splitFrom_nonempty.
Qed.

Lemma Split_app (a b : string) :
  strings.Split (a ++ String "/" b) "/"
  = (strings.Split a "/" ++ strings.Split b "/")%list.
Proof.
  unfold strings.Split. apply splitFrom_app.
Qed.

Lemma index_last_two {A : Type} (l : list A) (a b : A) :
  index (l ++ [a; b]) (len (l ++ [a; b]) - 2) = Some a
  /\ index (l ++ [a; b]) (len (l ++ [a; b]) - 1) = Some b.
Proof.
  unfold index, len. rewrite length_app. simpl.
  replace (Z.of_nat (List.length l + 2) - 2)%Z with (Z.of_nat (List.length l)) by lia.
  replace (Z.of_nat (List.length l + 2) - 1)%Z with (Z.of_nat (S (List.length l))) by lia.
  destruct (Z.ltb_spec (Z.of_nat (List.length l)) 0); [lia|].
  destruct (Z.ltb_spec (Z.of_nat (S (List.length l))) 0); [lia|].
  rewrite !Nat2Z.id. split.
  - rewrite nth_error_app2 by lia. now rewrite Nat.sub_diag.
  - rewrite nth_error_app2 by lia.
    replace (S (List.length l) - List.length l) with 1 by lia. reflexivity.
Qed.

Lemma defaultTitle_segments (gitURL version : string) (l : list string)
  (org name : string) :
  strings.Split gitURL "/" = (l ++ [org; name])%list ->
  defaultTitle gitURL version = Some (titleFor (org ++ "/" ++ name) version).
Proof.
  intro H. unfold defaultTitle. rewrite H.
  destruct (index_last_two l org name) as [H1 H2]. now rewrite H1, H2.
Qed.

Lemma defaultTitle_last_two (p org name version : string) :
  containsByte org "/" = false ->
  containsByte name "/" = false ->
  defaultTitle (p ++ "/" ++ org ++ "/" ++ name) version
  = Some (titleFor (org ++ "/" ++ name) version).
Proof.
  intros Ho Hn.
  apply (defaultTitle_segments _ _ (strings.Split p "/")).
  change (p ++ "/" ++ org ++ "/" ++ name) with (p ++ String "/" (org ++ "/" ++ name)).
  rewrite Split_app. f_equal.
  change (org ++ "/" ++ name) with (org ++ String "/" name).
  rewrite Split_app, !Split_no_separator by assumption. reflexivity.
Qed.

Lemma defaultTitle_total (gitURL version : string) :
  containsByte gitURL "/" = true -> defaultTitle gitURL version <> None.
Proof.
  intro H. pose proof (splitFrom_length "/" "" gitURL H) as Hl.
  unfold defaultTitle, strings.Split.
  set (l := strings.splitFrom "/" 0 "" gitURL) in *.
  unfold index, len.
  destruct (Z.ltb_spec (Z.of_nat (List.length l) - 2) 0); [lia|].
  destruct (Z.ltb_spec (Z.of_nat (List.length l) - 1) 0); [lia|].
  destruct (nth_error l (Z.to_nat (Z.of_nat (List.length l) - 2))) eqn:E1.
  - destruct (nth_error l (Z.to_nat (Z.of_nat (List.length l) - 1))) eqn:E2;
      [discriminate|].
    apply nth_error_None in E2. lia.
  - apply nth_error_None in E1. lia.
Qed.

Lemma defaultTitle_not_empty (gitURL version t : string) :
  defaultTitle gitURL version = Some t -> t <> "".
Proof.
  unfold defaultTitle. intro H.
  destruct (index _ _); [|discriminate]. destruct (index _ _); [|discriminate].
  injection H as <-. discriminate.
Qed.

Section Titles.

Context {World : Type} (X : Externals World).

(** X1: with no title configured, the title names the last two
    '/'-separated segments of the git URL, whatever comes before them,
    and the version the options hold once the changes are applied. *)
Theorem default_title_names_last_two_segments
  (rule : Rule) (gitURL org name : string) (s s1 : State World) :
  containsByte org "/" = false ->
  containsByte name "/" = false ->
  (gitURL = org ++ "/" ++ name \/ exists p, gitURL = p ++ "/" ++ org ++ "/" ++ name) ->
  applyLoop X (OutDir (EPO (opts s))) gitURL (Changes rule) s = Return s1 None ->
  PullRequestTitle (opts s1) = "" ->
  titleAfter (Function X rule gitURL s)
  = Some ("chore(deps): upgrade " ++ org ++ "/" ++ name ++ " to version "
            ++ Version (opts s1)).
Proof.
  intros Ho Hn Hu Hc Ht.
  rewrite (Function_after_changes _ _ _ _ _ Hc).
  apply titleAfter_defaultTitles; [assumption|].
  replace ("chore(deps): upgrade " ++ org ++ "/" ++ name ++ " to version "
             ++ Version (opts s1))
    with (titleFor (org ++ "/" ++ name) (Version (opts s1))).
  - destruct Hu as [-> | [p ->]].
    + apply (defaultTitle_segments _ _ []).
      change (org ++ "/" ++ name) with (org ++ String "/" name).
      rewrite Split_app, !Split_no_separator by assumption. reflexivity.
    + now apply defaultTitle_last_two.
  - unfold titleFor. f_equal. now rewrite !append_assoc.
Qed.

(** X2: with no title configured and the changes applied, the change
    function panics exactly when the git URL holds no '/'. *)
Theorem change_function_panics_iff_no_slash
  (rule : Rule) (gitURL : string) (s s1 : State World) :
  applyLoop X (OutDir (EPO (opts s))) gitURL (Changes rule) s = Return s1 None ->
  PullRequestTitle (opts s1) = "" ->
  Function X rule gitURL s = Panicked <-> containsByte gitURL "/" = false.
Proof.
  intros Hc Ht. rewrite (Function_after_changes _ _ _ _ _ Hc).
  unfold defaultTitles. rewrite Ht. simpl. split.
  - intro H. destruct (containsByte gitURL "/") eqn:E; [|reflexivity].
    pose proof (defaultTitle_total gitURL (Version (opts s1)) E) as Hn.
    destruct (defaultTitle gitURL (Version (opts s1))); [discriminate | congruence].
  - intro H. now rewrite (defaultTitle_no_separator _ _ H).
Qed.

(** X4: a title that is set when the changes are done is kept, whatever
    the git URL is (even one without '/'): the change function returns
    nil, touches neither the world nor the log, and only fills an empty
    commit title with the title. *)
Theorem configured_title_is_kept
  (rule : Rule) (gitURL : string) (s s1 : State World) :
  applyLoop X (OutDir (EPO (opts s))) gitURL (Changes rule) s = Return s1 None ->
  PullRequestTitle (opts s1) <> "" ->
  exists s2,
    Function X rule gitURL s = Return s2 None
    /\ PullRequestTitle (opts s2) = PullRequestTitle (opts s1)
    /\ CommitTitle (EPO (opts s2))
       = (if CommitTitle (EPO (opts s1)) =? ""
          then PullRequestTitle (opts s1) else CommitTitle (EPO (opts s1)))
    /\ world s2 = world s1
    /\ logs s2 = logs s1.
Proof.
  intros Hc Ht. rewrite (Function_after_changes _ _ _ _ _ Hc).
  apply String.eqb_neq in Ht. unfold defaultTitles. rewrite Ht.
  eexists. split; [reflexivity|].
  destruct (CommitTitle (EPO (opts s1)) =? "") eqn:E; simpl; rewrite ?E;
    repeat split.
Qed.

(** X5: whenever the change function returns nil, the options hold a
    non-empty pull-request title and a non-empty commit title. *)
Theorem titles_are_set_after_the_change_function
  (rule : Rule) (gitURL : string) (s s2 : State World) :
  Function X rule gitURL s = Return s2 None ->
  PullRequestTitle (opts s2) <> "" /\ CommitTitle (EPO (opts s2)) <> "".
Proof.
  unfold Function.
  destruct (applyLoop X _ gitURL (Changes rule) s) as [s1 [e|]|]; try discriminate.
  unfold defaultTitles.
  destruct (PullRequestTitle (opts s1) =? "") eqn:Et.
  - destruct (defaultTitle gitURL (Version (opts s1))) as [t|] eqn:Ed; [|discriminate].
    apply defaultTitle_not_empty in Ed. simpl.
    destruct (CommitTitle (EPO (opts s1)) =? "") eqn:Ec; intro H;
      injection H as <-; simpl; split; try assumption.
    now apply String.eqb_neq.
  - apply String.eqb_neq in Et.
    destruct (CommitTitle (EPO (opts s1)) =? "") eqn:Ec; intro H;
      injection H as <-; simpl; split; try assumption.
    now apply String.eqb_neq.
Qed.

End Titles.

(* ================================================================= *)
(** ** More on FindURLs and the trace *)

Section Discovery.

Context {World : Type} (X : Externals World).

Lemma findURLsLoop_app (pre l : list Change) (rule : Rule) (s : State World) :
  findURLsLoop X (pre ++ l) rule s =
  match findURLsLoop X pre rule s with
  | Return s' (rule', None) => findURLsLoop X l rule' s'
  | r => r
  end.
Proof.
  revert rule s. induction pre as [|ch pre IH]; intros rule s; simpl.
  - reflexivity.
  - destruct (ChangeGo ch) as [g|]; [|apply IH].
    destruct (GoFindURLs X rule ch g s) as [s' [rule' [e|]]|]; auto.
Qed.

Lemma findURLsLoop_no_Go (changes : list Change) (rule : Rule) (s : State World) :
  Forall (fun ch => ChangeGo ch = None) changes ->
  findURLsLoop X changes rule s = Return s (rule, None).
Proof.
  intro H. induction H as [|ch l Hc _ IH]; simpl; [reflexivity|].
  now rewrite Hc.
Qed.

(** X6: a rule without any Go change is left as it is by [FindURLs]:
    no collaborator is asked, the state is unchanged and no error is
    returned; the URLs of the rule are those of the configuration. *)
Theorem FindURLs_without_Go_changes (rule : Rule) (s : State World) :
  Forall (fun ch => ChangeGo ch = None) (Changes rule) ->
  FindURLs X rule s = Return s (rule, None).
Proof.
  apply findURLsLoop_no_Go.
Qed.

(** X7: when the discovery for a Go change fails, [FindURLs] stops at
    that change and returns the failure wrapped; the iteration of [Run]
    for the rule stores the rule as the discovery left it, makes no call
    of [Create], and [Run] processes no later rule. *)
Theorem FindURLs_failure_aborts_the_run
  (i : nat) (rule rule0 rule1 : Rule) (pre post : list Change) (ch : Change)
  (g : GoChange) (s s0 s1 : State World) (err : error) :
  nth_error (rulesOf (opts s)) i = Some rule ->
  Changes rule = (pre ++ ch :: post)%list ->
  findURLsLoop X pre rule s = Return s0 (rule0, None) ->
  ChangeGo ch = Some g ->
  GoFindURLs X rule0 ch g s0 = Return s1 (rule1, Some err) ->
  FindURLs X rule s
  = Return s1 (rule1, Some (Wrapf err "failed to find go repositories to update" []))
  /\ forall n,
       rulesLoop X (S n) i s
       = ([], Return (withOpts (setRule i rule1 (opts s1)) s1)
                (Some (Wrapf (Wrapf err "failed to find go repositories to update" [])
                         "failed to find URLs" []))).
Proof.
  intros Hr Hch Hpre Hg Hf.
  assert (HF : FindURLs X rule s
               = Return s1 (rule1,
                   Some (Wrapf err "failed to find go repositories to update" []))).
  { unfold FindURLs. rewrite Hch, findURLsLoop_app, Hpre. simpl.
    now rewrite Hg, Hf. }
  split; [exact HF|].
  intro n. rewrite rulesLoop_S. unfold ruleStep. rewrite Hr, HF. reflexivity.
Qed.

Lemma trace_follows_the_URLs
  (i : nat) (rule : Rule) (urls : list string) (s : State World) :
  (exists rest,
     filter (fun u => negb (u =? "")) urls
     = (map callURL (fst (urlLoop X i rule urls s)) ++ rest)%list)
  /\ (forall s', snd (urlLoop X i rule urls s) = Return s' None ->
        map callURL (fst (urlLoop X i rule urls s))
        = filter (fun u => negb (u =? "")) urls).
Proof.
  revert s. induction urls as [|u urls IH]; intro s; simpl.
  - split; [exists []; reflexivity | reflexivity].
  - destruct (u =? "") eqn:Eu; simpl; [apply IH|].
    destruct (Create X _ _ _ _ _ _) as [s1 [[pr|] [e|]]|]; simpl;
      try (split; [eexists; reflexivity | discriminate]).
    + destruct (AddPullRequest X pr s1) as [s2 []|]; simpl;
        [|split; [eexists; reflexivity | discriminate]].
      destruct (IH s2) as [[rest Hr] Hs].
      destruct (urlLoop X i rule urls s2) as [t r]. simpl in *.
      split; [exists rest; now rewrite Hr | intros s' H; f_equal; eauto].
    + match goal with |- context [urlLoop X i rule urls ?s0] =>
        destruct (IH s0) as [[rest Hr] Hs];
        destruct (urlLoop X i rule urls s0) as [t r] end.
      simpl in *.
      split; [exists rest; now rewrite Hr | intros s' H; f_equal; eauto].
Qed.

(** X8: the loop over the URLs of a rule is the sequence of its steps,
    one per entry and in the order of the list, each from the state the
    one before left and none once a step has failed; the step for a
    non-empty entry hands [Create] that very URL and cannot end without
    calling it, an equal entry met earlier makes no difference, and in a
    run [Create] never receives an empty URL. The recorded calls are a
    prefix of the non-empty URLs, and all of them when the loop ends
    without error. *)
Theorem calls_follow_the_URLs
  (i : nat) (rule : Rule) (urls : list string) (s : State World) :
  (forall pre u rest,
     urls = (pre ++ u :: rest)%list ->
     urlLoop X i rule urls s
     = thenRun (urlLoop X i rule pre s)
         (fun s1 => thenRun (urlLoop X i rule [u] s1) (urlLoop X i rule rest)))
  /\ (forall u, u <> "" ->
        urlLoop (guarded (urlIs u) X) i rule [u] s = urlLoop X i rule [u] s)
  /\ (forall u, u <> "" ->
        snd (urlLoop (guarded (fun _ _ _ _ _ => false) X) i rule [u] s) = Panicked)
  /\ Run (guarded urlGiven X) s = Run X s
  /\ (exists rest,
        filter (fun u => negb (u =? "")) urls
        = (map callURL (fst (urlLoop X i rule urls s)) ++ rest)%list)
  /\ (forall s', snd (urlLoop X i rule urls s) = Return s' None ->
        map callURL (fst (urlLoop X i rule urls s))
        = filter (fun u => negb (u =? "")) urls).
Proof.
  split; [|split; [|split; [|split]]].
  - intros pre u rest ->. rewrite urlLoop_app.
    assert (Hk : forall s1,
               urlLoop X i rule (u :: rest) s1
               = thenRun (urlLoop X i rule [u] s1) (urlLoop X i rule rest))
      by (intro s1; apply (urlLoop_app X i rule [u] rest s1)).
    unfold thenRun at 1 3.
    destruct (urlLoop X i rule pre s) as [t [s1 [e|]|]]; try reflexivity.
    now rewrite Hk.
  - intros u Hu. apply urlLoop_guarded_step; [assumption | | reflexivity].
    unfold urlIs. apply String.eqb_refl.
  - intros u Hu. apply String.eqb_neq in Hu. cbn [urlLoop]. rewrite Hu.
    reflexivity.
  - apply Run_guarded. intros gitURL s0 Hu. unfold urlGiven.
    apply String.eqb_neq in Hu. now rewrite Hu.
  - apply trace_follows_the_URLs.
Qed.

(** X9: in every run [Create] receives an empty directory, the
    AutoMerge option of the options it receives, and details that are no
    draft, have no source branch, carry the title and body of those
    options, and one label per configured label name, the description
    equal to the name: a [Create] that panics on anything else runs
    exactly like the original. *)
Theorem details_of_every_call (s : State World) :
  Run (guarded detailsMatch X) s = Run X s.
Proof.
  apply Run_guarded. intros gitURL s0 _. unfold detailsMatch. simpl.
  assert (Hl : forall o, Labels (reuseExisting o) = Labels o)
    by (intro o; unfold reuseExisting; destruct (AutoMerge o); reflexivity).
  assert (Ht : forall o, PullRequestTitle (reuseExisting o) = PullRequestTitle o)
    by (intro o; unfold reuseExisting; destruct (AutoMerge o); reflexivity).
  assert (Hb : forall o, PullRequestBody (reuseExisting o) = PullRequestBody o)
    by (intro o; unfold reuseExisting; destruct (AutoMerge o); reflexivity).
  rewrite Hl, Ht, Hb. simpl. rewrite !map_map. simpl. rewrite map_id.
  rewrite Bool.eqb_reflx, !String.eqb_refl, !sameStrings_refl. reflexivity.
Qed.

(** X10: the step that ensures the "updatebot" label never drops or
    reorders a label of the filter: it appends the label when AutoMerge
    is on and the label is absent, and changes nothing otherwise. *)
Theorem reuseExisting_keeps_the_labels (o : Options) :
  filterLabels (reuseExisting o)
  = (filterLabels o
     ++ (if AutoMerge o
            && (count_occ string_dec (filterLabels o) LabelUpdatebot =? 0)%nat
         then [LabelUpdatebot] else []))%list.
Proof.
  unfold reuseExisting, filterLabels.
  destruct (AutoMerge o); simpl; [|now rewrite app_nil_r].
  destruct (Filter (EPO o)) as [f|]; simpl.
  - rewrite StringArrayIndex_count.
    destruct (count_occ string_dec (FilterLabels f) LabelUpdatebot =? 0)%nat;
      simpl; [reflexivity | now rewrite app_nil_r].
  - reflexivity.
Qed.

(** X11: [Run] returns nil only when no call of [Create] returned an
    error. *)
Theorem Run_nil_means_no_failed_call (s s' : State World) :
  snd (Run X s) = Return s' None ->
  Forall (fun c => callErr c = None) (fst (Run X s)).
Proof.
  intro H. pose proof (Run_ended X s) as He. rewrite H in He.
  inversion He; subst. assumption.
Qed.

End Discovery.

(* ================================================================= *)
(** ** More on the result of Run *)

Section RunErrors.

Context {World : Type} (X : Externals World).

Lemma urlLoop_error (i : nat) (rule : Rule) (urls : list string)
  (s s' : State World) (e : error) :
  snd (urlLoop X i rule urls s) = Return s' (Some e) -> RunError e.
Proof.
  revert s. induction urls as [|u urls IH]; intro s; simpl; [discriminate|].
  destruct (u =? "") eqn:Eu; [apply IH|]. apply String.eqb_neq in Eu.
  destruct (Create X _ _ _ _ _ _) as [s1 [[pr|] [e1|]]|]; simpl;
    try discriminate;
    try (intro H; injection H as _ <-; now apply CreateFailed).
  - destruct (AddPullRequest X pr s1) as [s2 []|]; simpl; [|discriminate].
    specialize (IH s2). destruct (urlLoop X i rule urls s2). exact IH.
  - match goal with |- context [urlLoop X i rule urls ?s0] =>
      specialize (IH s0); destruct (urlLoop X i rule urls s0) end.
    exact IH.
Qed.

Lemma ruleStep_error (i : nat) (s s' : State World) (e : error) :
  snd (ruleStep X i s) = Return s' (Some e) -> RunError e.
Proof.
  unfold ruleStep. destruct (nth_error _ i) as [rule|]; [|discriminate].
  destruct (FindURLs X rule s) as [s1 [rule1 [e1|]]|]; simpl; try discriminate.
  - intro H. injection H as _ <-. apply FindURLsFailed.
  - apply urlLoop_error.
Qed.

Lemma rulesLoop_error (n i : nat) (s s' : State World) (e : error) :
  snd (rulesLoop X n i s) = Return s' (Some e) -> RunError e.
Proof.
  revert i s. induction n as [|n IH]; intros i s; [discriminate|].
  rewrite rulesLoop_S. pose proof (ruleStep_error i s) as Hs.
  destruct (ruleStep X i s) as [t [s1 [e1|]|]]; simpl in *.
  - intro H. injection H as _ <-. eapply Hs. reflexivity.
  - specialize (IH (S i) s1). destruct (rulesLoop X n (S i) s1). exact IH.
  - discriminate.
Qed.

(** X12: an error returned by [Run] is always a wrapped one, with one of
    three contexts: the validation, the discovery of the URLs, or the
    creation of the pull request on a named, non-empty repository. *)
Theorem Run_errors_are_wrapped (s s' : State World) (e : error) :
  snd (Run X s) = Return s' (Some e) -> RunError e.
Proof.
  unfold Run. destruct (Validate X s) as [s1 [e1|]]; simpl.
  - intro H. injection H as _ <-. apply ValidateFailed.
  - apply rulesLoop_error.
Qed.

End RunErrors.

(* ================================================================= *)
(** ** More on Validate *)

Section ValidatePhases.

Context {World : Type} (X : Externals World).

Lemma andThen_always (P M Q : State World -> Prop) (f g : phase) :
  always P f M -> always M g Q -> (forall s, M s -> Q s) ->
  always P (andThen f g) Q.
Proof.
  intros Hf Hg HMQ s HP. unfold andThen. specialize (Hf s HP).
  destruct (f s) as [s1 [e|]]; simpl in *; [now apply HMQ | now apply Hg].
Qed.

Lemma andThen_onSuccess (P M Q : State World -> Prop) (f g : phase) :
  onSuccess P f M -> onSuccess M g Q -> onSuccess P (andThen f g) Q.
Proof.
  intros Hf Hg s HP. unfold andThen. specialize (Hf s HP).
  destruct (f s) as [s1 [e|]]; simpl in *; [discriminate|].
  intro H. apply Hg; auto.
Qed.

Lemma gitToken_always (Q : State World -> Prop) :
  always Q (discoverServer X) Q -> always Q (findToken X) Q ->
  always Q (gitToken X) Q.
Proof.
  intros Hd Hf s HQ. unfold gitToken.
  destruct (GitToken (Factory (EPO (opts s))) =? ""); [|exact HQ].
  now apply (andThen_always Q Q Q).
Qed.

Ltac keeps_simple :=
  intros ? ?; unfold_phases; split_matches; simpl in *; assumption.

Ltac keeps_phase :=
  first [ apply gitToken_always; keeps_simple | keeps_simple ].

Ltac chain Q :=
  repeat (apply (andThen_always Q Q Q); [ | | auto]).

(** X13: [Validate] only reads the directory, the title, the body, the
    commit email, the labels, the GraphQL client and the AutoMerge,
    NoVersion and GitCredentials switches: whether it fails or not, they
    are as they were. *)
Theorem Validate_keeps_the_flags (s : State World) :
  flagsOf (opts (fst (Validate X s))) = flagsOf (opts s).
Proof.
  set (Q := fun st : State World => flagsOf (opts st) = flagsOf (opts s)).
  assert (H : always Q (Validate X) Q).
  { unfold Validate. chain Q; subst Q; keeps_phase. }
  now apply H.
Qed.

(** The phases after [initMaps] (lines 214-320). *)
Lemma Validate_after_initMaps (s : State World) :
  Validate X s
  = andThen initMaps (andThen (versionFromFile X) (andThen (versionFromEnv X)
                                                    (afterVersion X))) s.
Proof. reflexivity. Qed.

(** X14: whether [Validate] fails or not, it leaves the template data
    and the pull-request SHAs as non-nil maps: a map that was there is
    kept, a nil one becomes an empty map. *)
Theorem Validate_initialises_the_maps (s : State World) :
  TemplateData (opts (fst (Validate X s)))
  = Some (match TemplateData (opts s) with Some m => m | None => [] end)
  /\ PullRequestSHAs (opts (fst (Validate X s)))
     = Some (match PullRequestSHAs (opts s) with Some m => m | None => [] end).
Proof.
  set (Q := fun st : State World =>
              TemplateData (opts st)
              = Some (match TemplateData (opts s) with Some m => m | None => [] end)
              /\ PullRequestSHAs (opts st)
                 = Some (match PullRequestSHAs (opts s) with
                         | Some m => m | None => [] end)).
  assert (H : always (fun st => st = s) (Validate X) Q).
  { unfold Validate. apply (andThen_always _ Q Q); [ | | auto].
    - intros ? ->. subst Q. unfold initMaps. simpl.
      destruct (TemplateData (opts s)) eqn:Et;
        destruct (PullRequestSHAs (opts s)) eqn:Ep; simpl;
        rewrite ?Et, ?Ep; simpl; rewrite ?Et, ?Ep; split; reflexivity.
    - chain Q; subst Q; keeps_phase. }
  now apply H.
Qed.

Lemma versionFromEnv_success :
  onSuccess (fun _ => True) (versionFromEnv X)
    (fun st => Version (opts st) <> "" \/ NoVersion (opts st) = true).
Proof.
  intros s _. unfold versionFromEnv.
  destruct (Version (opts s) =? "") eqn:Ev; simpl.
  - destruct (os_Getenv X "VERSION" (world s) =? "") eqn:Eg; simpl.
    + destruct (NoVersion (opts s)) eqn:En; simpl; [|discriminate].
      intros _. now right.
    + intros _. left. now apply String.eqb_neq.
  - intros _. left. now apply String.eqb_neq.
Qed.

Lemma commitUsername_sets_the_name (s : State World) :
  GitCommitUsername (opts (fst (commitUsername X s))) <> "".
Proof.
  unfold commitUsername. destruct s as [o w l].
  destruct o as [epo dir cf ver vf prt prb gu ge am nv gcr lbl td shas hl gql cfg].
  simpl.
  repeat (match goal with
          | |- context [if ?c then _ else _] => destruct c eqn:?
          end; simpl);
    solve [discriminate | now apply String.eqb_neq].
Qed.

Lemma gitCredentials_success :
  onSuccess (fun _ => True) (gitCredentials X)
    (fun st => GitCredentials (opts st) = true ->
               GitToken (Factory (EPO (opts st))) <> "").
Proof.
  intros s _. unfold gitCredentials.
  destruct (GitCredentials (opts s)) eqn:Eg; simpl.
  - destruct (GitToken (Factory (EPO (opts s))) =? "") eqn:Et; simpl;
      [discriminate|].
    destruct (setup_Run X _ (world s)) as [[gc w] [e|]]; simpl; [discriminate|].
    intros _ _. now apply String.eqb_neq.
  - intros _. rewrite Eg. discriminate.
Qed.

Lemma gitCredentials_keeps_the_options (s : State World) :
  opts (fst (gitCredentials X s)) = opts s.
Proof.
  unfold gitCredentials. split_matches; reflexivity.
Qed.

(** X15: when [Validate] returns nil, the options hold a commit user
    name, a helm client, a version unless NoVersion is set, and, when git
    credentials were asked for, a git token. *)
Theorem Validate_success_postconditions (s : State World) :
  snd (Validate X s) = None ->
  let o := opts (fst (Validate X s)) in
  GitCommitUsername o <> ""
  /\ OptHelmer o <> None
  /\ (Version o <> "" \/ NoVersion o = true)
  /\ (GitCredentials o = true -> GitToken (Factory (EPO o)) <> "").
Proof.
  set (V := fun st : State World =>
              Version (opts st) <> "" \/ NoVersion (opts st) = true).
  set (VH := fun st : State World => V st /\ OptHelmer (opts st) <> None).
  set (VHU := fun st : State World =>
                VH st /\ GitCommitUsername (opts st) <> "").
  set (R := fun st : State World =>
              GitCommitUsername (opts st) <> ""
              /\ OptHelmer (opts st) <> None
              /\ V st
              /\ (GitCredentials (opts st) = true ->
                  GitToken (Factory (EPO (opts st))) <> "")).
  assert (H : onSuccess (fun _ => True) (Validate X) R).
  { unfold Validate.
    apply (andThen_onSuccess _ (fun _ => True)); [intros ? ? ?; exact I|].
    apply (andThen_onSuccess _ (fun _ => True)); [intros ? ? ?; exact I|].
    apply (andThen_onSuccess _ V); [apply versionFromEnv_success|].
    apply (andThen_onSuccess _ V).
    { intros st HV _. revert HV. subst V. unfold loadConfigFile.
      split_matches; simpl; exact (fun H => H). }
    apply (andThen_onSuccess _ VH).
    { intros st HV _. subst VH V. unfold defaultHelmer.
      destruct (OptHelmer (opts st)) eqn:Eh; simpl.
      - split; [exact HV | rewrite Eh; discriminate].
      - split; [exact HV | discriminate]. }
    apply (andThen_onSuccess _ VH).
    { intros st HV _. revert HV. subst VH V. unfold gitIdentity.
      split_matches; simpl; exact (fun H => H). }
    apply (andThen_onSuccess _ VH).
    { intros st HV _. revert st HV.
      change (always VH (gitToken X) VH). subst VH V. keeps_phase. }
    apply (andThen_onSuccess _ VHU).
    { intros st HV _. subst VHU. split.
      - revert HV. subst VH V. unfold commitUsername.
        split_matches; simpl; exact (fun H => H).
      - apply commitUsername_sets_the_name. }
    intros st [[HV HH] HU] Hs. subst R V. cbv beta in *.
    pose proof (gitCredentials_success st I Hs) as HT. cbv beta in HT.
    rewrite gitCredentials_keeps_the_options in HT |- *. auto. }
  intros Hs. exact (H s I Hs).
Qed.

(** X16: a commit user name given on the command line is never
    replaced by [Validate], whether it fails or not. *)
Theorem Validate_keeps_an_explicit_username (s : State World) :
  GitCommitUsername (opts s) <> "" ->
  GitCommitUsername (opts (fst (Validate X s))) = GitCommitUsername (opts s).
Proof.
  intro Hu.
  set (Q := fun st : State World =>
              GitCommitUsername (opts st) = GitCommitUsername (opts s)).
  assert (Hc : always Q (commitUsername X) Q).
  { intros st HQ. subst Q. simpl in *. apply String.eqb_neq in Hu.
    unfold commitUsername. rewrite HQ, Hu. simpl. rewrite HQ, Hu. simpl.
    rewrite HQ, Hu. simpl. exact HQ. }
  assert (H : always Q (Validate X) Q).
  { unfold Validate. chain Q; try exact Hc; subst Q; keeps_phase. }
  now apply H.
Qed.

Lemma Validate_fails_in_versionFromFile (s : State World) (e : error) :
  snd (versionFromFile X (fst (initMaps s))) = Some e ->
  Validate X s = (fst (versionFromFile X (fst (initMaps s))), Some e).
Proof.
  intro H. rewrite Validate_after_initMaps. unfold andThen at 1.
  destruct (initMaps_spec s) as (o1 & Hi & _). rewrite Hi in *. simpl in *.
  unfold andThen at 1.
  destruct (versionFromFile X (withOpts o1 s)) as [s1 r]. simpl in H.
  now subst r.
Qed.

Lemma versionFromFile_after_initMaps (s : State World) :
  snd (versionFromFile X (fst (initMaps s))) = snd (versionFromFile X s)
  /\ world (fst (versionFromFile X (fst (initMaps s)))) = world (fst (versionFromFile X s)).
Proof.
  unfold versionFromFile, initMaps. destruct s as [o w l].
  destruct o as [epo dir cf ver vf prt prb gu ge am nv gcr lbl td shas hl gql cfg].
  simpl. destruct td, shas; simpl;
    (destruct (ver =? ""); [|split; reflexivity]);
    destruct (vf =? ""); simpl; split_matches; simpl; split; reflexivity.
Qed.

(** X17: with no explicit version, a failure to check for the version
    file is fatal, even when the VERSION variable would supply a version:
    [Validate] returns the failure wrapped with the path, the world is
    untouched, and [Run] stops before any call of [Create]. *)
Theorem version_file_check_failure_is_fatal
  (s : State World) (b : bool) (err : error) :
  Version (opts s) = "" ->
  files_FileExists X (versionFilePath X (opts s)) (world s) = (b, Some err) ->
  let failure := Wrapf err "failed to check for file %s"
                   [AStr (versionFilePath X (opts s))] in
  snd (Validate X s) = Some failure
  /\ world (fst (Validate X s)) = world s
  /\ Run X s = ([], Return (fst (Validate X s))
                     (Some (Wrapf failure "failed to validate" []))).
Proof.
  intros Hv Hf failure.
  assert (H : snd (versionFromFile X s) = Some failure
              /\ world (fst (versionFromFile X s)) = world s).
  { subst failure. unfold versionFromFile, versionFilePath in *.
    destruct s as [o w l].
    destruct o as [epo dir cf ver vf prt prb gu ge am nv gcr lbl td shas hl gql cfg].
    simpl in *. subst ver. simpl.
    destruct (vf =? ""); simpl in *; rewrite Hf; destruct b; simpl; split;
      reflexivity. }
  destruct H as [He Hw].
  destruct (versionFromFile_after_initMaps s) as [He' Hw'].
  rewrite He in He'. rewrite Hw in Hw'.
  pose proof (Validate_fails_in_versionFromFile s failure He') as HV.
  unfold Run. rewrite HV. simpl. repeat split. exact Hw'.
Qed.

(** X18: with no explicit version, a version file that exists but
    cannot be read is fatal in the same way: the failure is wrapped with
    the path and nothing else is tried. *)
Theorem version_file_read_failure_is_fatal
  (s : State World) (data : string) (err : error) :
  Version (opts s) = "" ->
  files_FileExists X (versionFilePath X (opts s)) (world s) = (true, None) ->
  ioutil_ReadFile X (versionFilePath X (opts s)) (world s) = (data, Some err) ->
  let failure := Wrapf err "failed to read version file %s"
                   [AStr (versionFilePath X (opts s))] in
  snd (Validate X s) = Some failure
  /\ world (fst (Validate X s)) = world s
  /\ Run X s = ([], Return (fst (Validate X s))
                     (Some (Wrapf failure "failed to validate" []))).
Proof.
  intros Hv Hf Hr failure.
  assert (H : snd (versionFromFile X s) = Some failure
              /\ world (fst (versionFromFile X s)) = world s).
  { subst failure. unfold versionFromFile, versionFilePath in *.
    destruct s as [o w l].
    destruct o as [epo dir cf ver vf prt prb gu ge am nv gcr lbl td shas hl gql cfg].
    simpl in *. subst ver. simpl.
    destruct (vf =? ""); simpl in *; rewrite Hf, Hr; simpl; split; reflexivity. }
  destruct H as [He Hw].
  destruct (versionFromFile_after_initMaps s) as [He' Hw'].
  rewrite He in He'. rewrite Hw in Hw'.
  pose proof (Validate_fails_in_versionFromFile s failure He') as HV.
  unfold Run. rewrite HV. simpl. repeat split. exact Hw'.
Qed.

Lemma discoverMessage_keeps_the_rules (s : State World) :
  OptUpdateConfig (opts (discoverMessage X s)) = OptUpdateConfig (opts s).
Proof.
  unfold discoverMessage. split_matches; reflexivity.
Qed.

(** X19: when the configuration file does not exist, [Validate] leaves
    the update configuration as it was, whether it fails or not; with no
    rule in it, [Run] makes no call of [Create], and returns nil when the
    validation passes. *)
Theorem missing_config_file_is_tolerated (s : State World) :
  files_FileExists X (configFilePath X (opts s)) (world s) = (false, None) ->
  OptUpdateConfig (opts (fst (Validate X s))) = OptUpdateConfig (opts s)
  /\ (rulesOf (opts s) = [] ->
      fst (Run X s) = []
      /\ (snd (Validate X s) = None -> exists s', snd (Run X s) = Return s' None)).
Proof.
  intro Hf.
  set (Q := fun st : State World =>
              OptUpdateConfig (opts st) = OptUpdateConfig (opts s)).
  set (M := fun st : State World =>
              Q st /\ ConfigFile (opts st) = ConfigFile (opts s)
              /\ Dir (opts st) = Dir (opts s)
              /\ world st = world s).
  assert (HMQ : forall st, M st -> Q st) by (intros st [H _]; exact H).
  assert (H : always M (Validate X) Q).
  { unfold Validate.
    apply (andThen_always M M Q); [ | | exact HMQ].
    { subst M Q. keeps_phase. }
    apply (andThen_always M M Q); [ | | exact HMQ].
    { subst M Q. keeps_phase. }
    apply (andThen_always M M Q); [ | | exact HMQ].
    { subst M Q. keeps_phase. }
    apply (andThen_always M Q Q); [ | | auto].
    { intros st (HQ & Hc & Hd & Hw). subst Q. simpl in *.
      unfold configFilePath in Hf. unfold loadConfigFile. rewrite Hc, Hd, Hw.
      destruct (ConfigFile (opts s) =? ""); simpl; rewrite ?Hc, Hf; simpl;
        exact HQ. }
    chain Q; subst Q; keeps_phase. }
  assert (HV : OptUpdateConfig (opts (fst (Validate X s)))
               = OptUpdateConfig (opts s)).
  { apply H. subst M Q. simpl. repeat split. }
  split; [exact HV|].
  intro Hr. unfold Run. destruct (Validate X s) as [s1 [e|]]; simpl in *.
  - split; [reflexivity | discriminate].
  - assert (Hn : rulesOf (opts (discoverMessage X s1)) = []).
    { unfold rulesOf in *. now rewrite discoverMessage_keeps_the_rules, HV. }
    rewrite Hn. simpl. split; [reflexivity|]. intros _. eexists. reflexivity.
Qed.

(** X20: the discovery of the git URL before the rules are processed
    never replaces a pull-request body or a commit message that is set,
    never touches the world, fills the empty ones with "from: <URL>" and
    a newline when a URL is found, and only logs a warning when the
    discovery fails. *)
Theorem discoverMessage_fills_only_the_gaps (s : State World) :
  world (discoverMessage X s) = world s
  /\ (PullRequestBody (opts s) <> "" ->
      PullRequestBody (opts (discoverMessage X s)) = PullRequestBody (opts s))
  /\ (CommitMessage (EPO (opts s)) <> "" ->
      CommitMessage (EPO (opts (discoverMessage X s)))
      = CommitMessage (EPO (opts s)))
  /\ (forall gitURL,
        gitdiscovery_FindGitURLFromDir X (Dir (opts s)) true (world s)
        = (gitURL, None) ->
        gitURL <> "" ->
        (PullRequestBody (opts s) = "" ->
         PullRequestBody (opts (discoverMessage X s))
         = "from: " ++ gitURL ++ String (ascii_of_nat 10) "")
        /\ (CommitMessage (EPO (opts s)) = "" ->
            CommitMessage (EPO (opts (discoverMessage X s)))
            = "from: " ++ gitURL ++ String (ascii_of_nat 10) ""))
  /\ (forall gitURL err,
        gitdiscovery_FindGitURLFromDir X (Dir (opts s)) true (world s)
        = (gitURL, Some err) ->
        opts (discoverMessage X s) = opts s).
Proof.
  unfold discoverMessage. destruct s as [o w l].
  destruct o as [epo dir cf ver vf prt prb gu ge am nv gcr lbl td shas hl gql cfg].
  destruct epo as [fa gi od bn ct cm fk fl]. simpl.
  destruct (gitdiscovery_FindGitURLFromDir X dir true w) as [u [e|]] eqn:Ed;
    [|destruct (String.eqb_spec u "") as [Eu|Eu]];
    destruct (String.eqb_spec prb "") as [Eb|Eb];
    destruct (String.eqb_spec cm "") as [Em|Em]; simpl;
    repeat match goal with
           | |- context [?x =? ""] =>
               destruct (String.eqb_spec x ""); try contradiction; try discriminate
           end; simpl;
    repeat split; intros; subst;
    repeat match goal with
           | H : (_, _) = (_, _) |- _ => injection H as ? ?; subst
           end;
    try reflexivity; try contradiction; try congruence.
Qed.

End ValidatePhases.

(* ================================================================= *)
(** ** More runs with the fake collaborators *)

Lemma default_title_names_last_two_segments_witness :
  titleAfter
    (Function Fake.X (Fake.rule [Fake.thing] [Fake.command "make"]) Fake.thing
       (Fake.start (Fake.options "1.2.3" "" []) Fake.emptyWorld))
  = Some "chore(deps): upgrade other/thing to version 1.2.3".
Proof.
  set (rule := Fake.rule [Fake.thing] [Fake.command "make"]).
  set (s := Fake.start (Fake.options "1.2.3" "" []) Fake.emptyWorld).
  set (s1 := match applyLoop Fake.X "/tmp/out" Fake.thing (Changes rule) s with
             | Return s1 _ => s1
             | Panicked => s
             end).
  exact (default_title_names_last_two_segments Fake.X rule Fake.thing
           "other" "thing" s s1 eq_refl eq_refl
           (or_intror (ex_intro _ "https://github.com" eq_refl))
           eq_refl eq_refl).
Defined.

Lemma change_function_panics_iff_no_slash_witness :
  (Function Fake.X (Fake.rule ["repo"] []) "repo"
     (Fake.start (Fake.options "1.2.3" "" []) Fake.emptyWorld) = Panicked
   <-> containsByte "repo" "/" = false)
  /\ (Function Fake.X (Fake.rule [Fake.thing] []) Fake.thing
        (Fake.start (Fake.options "1.2.3" "" []) Fake.emptyWorld) = Panicked
      <-> containsByte Fake.thing "/" = false).
Proof.
  split.
  - eapply (change_function_panics_iff_no_slash Fake.X); reflexivity.
  - eapply (change_function_panics_iff_no_slash Fake.X); reflexivity.
Defined.

Lemma configured_title_is_kept_witness :
  let s := Fake.start (Fake.options "1.2.3" "bump everything" []) Fake.emptyWorld in
  exists s2,
    Function Fake.X (Fake.rule ["repo"] []) "repo" s = Return s2 None
    /\ PullRequestTitle (opts s2) = "bump everything"
    /\ CommitTitle (EPO (opts s2)) = "bump everything"
    /\ world s2 = world s
    /\ logs s2 = logs s.
Proof.
  intro s.
  exact (configured_title_is_kept Fake.X (Fake.rule ["repo"] []) "repo" s s
           eq_refl ltac:(discriminate)).
Defined.

Lemma titles_are_set_after_the_change_function_witness :
  let s := Fake.start (Fake.options "1.2.3" "" []) Fake.emptyWorld in
  exists s2,
    Function Fake.X (Fake.rule [Fake.thing] []) Fake.thing s = Return s2 None
    /\ PullRequestTitle (opts s2) <> ""
    /\ CommitTitle (EPO (opts s2)) <> "".
Proof.
  intro s. eexists. split; [vm_compute; reflexivity|].
  eapply (titles_are_set_after_the_change_function Fake.X
            (Fake.rule [Fake.thing] []) Fake.thing s).
  vm_compute. reflexivity.
Defined.

Lemma FindURLs_without_Go_changes_witness :
  let s := Fake.start (Fake.options "1.2.3" "" [Fake.twoRepositories])
             Fake.emptyWorld in
  FindURLs Sample.X Fake.twoRepositories s = Return s (Fake.twoRepositories, None).
Proof.
  intro s. apply (FindURLs_without_Go_changes Sample.X).
  repeat constructor.
Defined.

Lemma FindURLs_failure_aborts_the_run_witness :
  let s := Fake.start (Fake.options "1.2.3" "" [Sample.broken; Fake.twoRepositories])
             Fake.emptyWorld in
  exists rule1 s1,
    URLs rule1 = [Fake.gadgets]
    /\ FindURLs Sample.X Sample.broken s
       = Return s1
           (rule1,
            Some (Wrapf (Errorf "exit status 1" [])
                    "failed to find go repositories to update" []))
    /\ forall n,
         rulesLoop Sample.X (S n) 0 s
         = ([], Return (withOpts (setRule 0 rule1 (opts s1)) s1)
                  (Some (Wrapf
                           (Wrapf (Errorf "exit status 1" [])
                              "failed to find go repositories to update" [])
                           "failed to find URLs" []))).
Proof.
  intro s.
  pose proof (fun rule0 rule1 s0 s1 =>
                FindURLs_failure_aborts_the_run Sample.X 0 Sample.broken rule0 rule1
                  [Sample.go Fake.gadgets] [Fake.command "make"]
                  (Sample.go "broken") {| GoText := "broken" |} s s0 s1
                  (Errorf "exit status 1" []) eq_refl eq_refl) as H.
  edestruct H as (Hf & Hr).
  - vm_compute. reflexivity.
  - reflexivity.
  - vm_compute. reflexivity.
  - eexists. eexists. split; [|split; [exact Hf | exact Hr]]. reflexivity.
Defined.

Lemma Run_nil_means_no_failed_call_witness :
  let s := Fake.start (Fake.options "1.2.3" "" [Sample.repeated]) Fake.emptyWorld in
  map callURL (fst (Run Fake.X s)) = [Fake.gadgets; Fake.thing; Fake.gadgets]
  /\ Forall (fun c => callErr c = None) (fst (Run Fake.X s)).
Proof.
  intro s. split; [vm_compute; reflexivity|].
  eapply (Run_nil_means_no_failed_call Fake.X s).
  vm_compute. reflexivity.
Defined.

Lemma Run_errors_are_wrapped_witness :
  let s := Fake.start (Fake.options "1.2.3" "" [Fake.failing]) Fake.emptyWorld in
  exists e s', snd (Run Fake.X s) = Return s' (Some e) /\ RunError e.
Proof.
  intro s. eexists. eexists. split.
  - vm_compute. reflexivity.
  - eapply (Run_errors_are_wrapped Fake.X s). vm_compute. reflexivity.
Defined.

Lemma Validate_success_postconditions_witness :
  let o := opts (fst (Validate Fake.X
                        (Fake.start (Fake.options "1.2.3" "" []) Fake.emptyWorld))) in
  GitCommitUsername o <> ""
  /\ OptHelmer o <> None
  /\ (Version o <> "" \/ NoVersion o = true)
  /\ (GitCredentials o = true -> GitToken (Factory (EPO o)) <> "").
Proof.
  exact (Validate_success_postconditions Fake.X
           (Fake.start (Fake.options "1.2.3" "" []) Fake.emptyWorld) eq_refl).
Defined.

Lemma Validate_keeps_an_explicit_username_witness :
  GitCommitUsername
    (opts (fst (Validate Fake.X
                  (Fake.start (setGitCommitUsername "alice" (Fake.options "" "" []))
                     Fake.emptyWorld))))
  = "alice".
Proof.
  exact (Validate_keeps_an_explicit_username Fake.X
           (Fake.start (setGitCommitUsername "alice" (Fake.options "" "" []))
              Fake.emptyWorld)
           ltac:(discriminate)).
Defined.

Lemma version_file_check_failure_is_fatal_witness :
  let s := Fake.start (setVersionFile "locked/VERSION" (Fake.options "" "" []))
             Fake.versioned in
  let failure := Wrapf (Errorf "stat %s: permission denied" [AStr "locked/VERSION"])
                   "failed to check for file %s" [AStr "locked/VERSION"] in
  os_Getenv Sample.X "VERSION" (world s) = "2.0.0"
  /\ snd (Validate Sample.X s) = Some failure
  /\ world (fst (Validate Sample.X s)) = world s
  /\ Run Sample.X s
     = ([], Return (fst (Validate Sample.X s))
              (Some (Wrapf failure "failed to validate" []))).
Proof.
  intros s failure. split; [reflexivity|].
  exact (version_file_check_failure_is_fatal Sample.X s false
           (Errorf "stat %s: permission denied" [AStr "locked/VERSION"])
           eq_refl eq_refl).
Defined.

Lemma version_file_read_failure_is_fatal_witness :
  let s := Fake.start (setVersionFile "unreadable/VERSION" (Fake.options "" "" []))
             Fake.versioned in
  let failure := Wrapf (Errorf "read %s: input/output error"
                          [AStr "unreadable/VERSION"])
                   "failed to read version file %s" [AStr "unreadable/VERSION"] in
  snd (Validate Sample.X s) = Some failure
  /\ world (fst (Validate Sample.X s)) = world s
  /\ Run Sample.X s
     = ([], Return (fst (Validate Sample.X s))
              (Some (Wrapf failure "failed to validate" []))).
Proof.
  intros s failure.
  exact (version_file_read_failure_is_fatal Sample.X s ""
           (Errorf "read %s: input/output error" [AStr "unreadable/VERSION"])
           eq_refl eq_refl eq_refl).
Defined.

Lemma missing_config_file_is_tolerated_witness :
  let s := Fake.start (Fake.options "1.2.3" "" []) Fake.emptyWorld in
  OptUpdateConfig (opts (fst (Validate Fake.X s))) = OptUpdateConfig (opts s)
  /\ fst (Run Fake.X s) = []
  /\ exists s', snd (Run Fake.X s) = Return s' None.
Proof.
  intro s.
  destruct (missing_config_file_is_tolerated Fake.X s eq_refl) as [Hc Hr].
  destruct (Hr eq_refl) as [Ht Hn].
  split; [exact Hc|]. split; [exact Ht|]. exact (Hn eq_refl).
Defined.

(* ================================================================= *)
(** ** Runs with a Create that checks what it is handed *)

Lemma BranchName_is_cleared_for_every_URL_witness :
  let s := Fake.start (Fake.options "1.2.3" "" [Fake.twoRepositories])
             Fake.emptyWorld in
  Run (guarded branchCleared Sample.branching) s = Run Sample.branching s
  /\ map callURL (fst (Run Sample.branching s)) = [Fake.gadgets; Fake.thing]
  /\ match snd (Run Sample.branching s) with
     | Return s' None => BranchName (EPO (opts s')) = "pr-" ++ Fake.thing
     | _ => False
     end
  /\ Create (guarded branchCleared Sample.branching)
       (Function Sample.branching Fake.twoRepositories Fake.thing) Fake.thing ""
       (newDetails (opts s)) true (onBranch ("pr-" ++ Fake.gadgets) s)
     = Panicked
  /\ urlLoop Sample.branching 0 Fake.twoRepositories [Fake.thing]
       (onBranch ("pr-" ++ Fake.gadgets) s)
     = urlLoop Sample.branching 0 Fake.twoRepositories [Fake.thing]
         (onBranch "" s).
Proof.
  intro s.
  destruct (BranchName_is_cleared_for_every_URL Sample.branching s) as [Hr Hb].
  split; [exact Hr|]. split; [vm_compute; reflexivity|].
  split; [vm_compute; reflexivity|]. split; [vm_compute; reflexivity|].
  apply Hb. discriminate.
Defined.

Lemma updatebot_label_is_ensured_once_witness :
  let s := Fake.start (Fake.options "1.2.3" "" [Fake.twoRepositories])
             Fake.emptyWorld in
  Run (guarded labelEnsured Fake.X) s = Run Fake.X s
  /\ map (fun c => filterLabels (callOpts c)) (fst (Run Fake.X s))
     = [["updatebot"]; ["updatebot"]]
  /\ Create (guarded labelEnsured Fake.X)
       (Function Fake.X Fake.twoRepositories Fake.thing) Fake.thing ""
       (newDetails (opts s)) true s
     = Panicked
  /\ urlLoop (guarded (labelsAre ["updatebot"]) Fake.X) 0 Fake.twoRepositories
       [Fake.thing] s
     = urlLoop Fake.X 0 Fake.twoRepositories [Fake.thing] s.
Proof.
  intro s.
  destruct (updatebot_label_is_ensured_once Fake.X s) as (Hr & Hs & _ & _).
  split; [exact Hr|]. split; [vm_compute; reflexivity|].
  split; [vm_compute; reflexivity|].
  apply (Hs 0 Fake.twoRepositories Fake.thing). discriminate.
Defined.

Lemma calls_follow_the_URLs_witness :
  let s := Fake.start (Fake.options "1.2.3" "" [Sample.repeated]) Fake.emptyWorld in
  urlLoop Fake.X 0 Sample.repeated [Fake.gadgets; ""; Fake.thing; Fake.gadgets] s
  = thenRun (urlLoop Fake.X 0 Sample.repeated [Fake.gadgets; ""] s)
      (fun s1 => thenRun (urlLoop Fake.X 0 Sample.repeated [Fake.thing] s1)
                   (urlLoop Fake.X 0 Sample.repeated [Fake.gadgets]))
  /\ urlLoop (guarded (urlIs Fake.thing) Fake.X) 0 Sample.repeated [Fake.thing] s
     = urlLoop Fake.X 0 Sample.repeated [Fake.thing] s
  /\ Fake.applied
       (match snd (urlLoop Fake.X 0 Sample.repeated (URLs Sample.repeated) s) with
        | Return s' _ => world s'
        | Panicked => world s
        end)
     = [(Fake.gadgets, "make"); (Fake.thing, "make"); (Fake.gadgets, "make")].
Proof.
  intro s.
  destruct (calls_follow_the_URLs Fake.X 0 Sample.repeated
              [Fake.gadgets; ""; Fake.thing; Fake.gadgets] s)
    as (Hc & Hu & _).
  split; [|split].
  - exact (Hc [Fake.gadgets; ""] Fake.thing [Fake.gadgets] eq_refl).
  - apply Hu. discriminate.
  - vm_compute. reflexivity.
Defined.

Lemma details_of_every_call_witness :
  let s := Fake.start (Fake.options "1.2.3" "bump" [Fake.twoRepositories])
             Fake.emptyWorld in
  Run (guarded detailsMatch Fake.X) s = Run Fake.X s
  /\ map callURL (fst (Run Fake.X s)) = [Fake.gadgets; Fake.thing]
  /\ Create (guarded detailsMatch Fake.X)
       (Function Fake.X Fake.twoRepositories Fake.thing) Fake.thing "some/dir"
       (newDetails (opts s)) true s
     = Panicked.
Proof.
  intro s. split; [exact (details_of_every_call Fake.X s)|].
  split; vm_compute; reflexivity.
Defined.
